(** * ziptrader-backtest: the transcript analyzer and the result store

    A shallow embedding of [src/caption_analyzer.py]:
    [_get_numerical_sentiment], [analyze_text] and [save_analysis_to_db],
    together with the pieces of the Python library they rest on (the three
    regular expressions, [str.strip], [str.join], [str.upper], [round]).

    Conventions.
    - A Python [str] is a list of characters.  The character classes of the
      regular expressions ([\w], [\s], [\b], [A-Z], [a-z]) and the case
      folding of [re.IGNORECASE] and [str.upper] are the ASCII ones: the
      model follows Python on ASCII text.
    - A Python [float] is a binary64 primitive float.
    - The collaborators (the company table, the summarization pipeline and
      the sentiment pipeline) are functions of their arguments whose result
      is either a value or a raised exception; every call is recorded in a
      trace. *)

From Stdlib Require Import String Ascii List Bool Arith Lia ZArith Floats.
Import ListNotations.

Set Implicit Arguments.

(** ** Python strings *)

Definition str := list ascii.

(** String literals of the source, as [str]. *)
Definition py (s : string) : str := list_ascii_of_string s.

Module Char.

Definition code (c : ascii) : N := N_of_ascii c.

Definition between (lo hi : N) (c : ascii) : bool :=
  (N.leb lo (code c) && N.leb (code c) hi)%bool.

(** [[A-Z]], [[a-z]] and [[0-9]]. *)
Definition is_upper : ascii -> bool := between 65 90.
Definition is_lower : ascii -> bool := between 97 122.
Definition is_digit : ascii -> bool := between 48 57.

(** [\w]: letters, digits and the underscore. *)
Definition is_word (c : ascii) : bool :=
  (is_upper c || is_lower c || is_digit c || N.eqb (code c) 95)%bool.

(** [\s], and the characters [str.strip()] removes: tab, line feed,
    vertical tab, form feed, carriage return, the four separators
    0x1c..0x1f and the space. *)
Definition is_space (c : ascii) : bool :=
  (between 9 13 c || between 28 31 c || N.eqb (code c) 32)%bool.

(** Case folding of [re.IGNORECASE]. *)
Definition lower (c : ascii) : ascii :=
  if is_upper c then ascii_of_N (code c + 32) else c.

(** [str.upper()] on one character. *)
Definition upper (c : ascii) : ascii :=
  if is_lower c then ascii_of_N (code c - 32) else c.

Definition eqb_ci (a b : ascii) : bool := Ascii.eqb (lower a) (lower b).

Definition dot : ascii := "."%char.
Definition question : ascii := "?"%char.
Definition space : ascii := " "%char.
Definition newline : ascii := ascii_of_N 10.

End Char.

(** [s.strip()] *)
Fixpoint lstrip (s : str) : str :=
  match s with
  | c :: s' => if Char.is_space c then lstrip s' else s
  | [] => []
  end.

Definition rstrip (s : str) : str := rev (lstrip (rev s)).

Definition strip (s : str) : str := rstrip (lstrip s).

(** [sep.join(parts)] *)
Fixpoint join (sep : str) (parts : list str) : str :=
  match parts with
  | [] => []
  | [p] => p
  | p :: ps => p ++ sep ++ join sep ps
  end.

(** [s.upper()] *)
Definition upper (s : str) : str := map Char.upper s.

(** Truth value of a string or of a list: non-empty. *)
Definition truthy {A : Type} (l : list A) : bool :=
  match l with [] => false | _ :: _ => true end.

Definition str_eqb (a b : str) : bool :=
  if list_eq_dec ascii_dec a b then true else false.

(** ** The regular expressions of [analyze_text]

    The matcher walks the subject from left to right.  [prev] is the
    character just before the current position ([None] at the start of the
    subject); it is what [\b] and the look-behinds inspect. *)

Module Re.

Definition word_opt (c : option ascii) : bool :=
  match c with Some c => Char.is_word c | None => false end.

(** [\b] at the position between [prev] and the head of [s]. *)
Definition at_boundary (prev : option ascii) (s : str) : bool :=
  xorb (word_opt prev) (word_opt (hd_error s)).

(** The escaped literal [lit] matched at the current position, ignoring
    case: the last character consumed (or [prev]) and the rest. *)
Fixpoint match_lit (lit : str) (prev : option ascii) (s : str)
  : option (option ascii * str) :=
  match lit with
  | [] => Some (prev, s)
  | a :: lit' =>
      match s with
      | b :: s' =>
          if Char.eqb_ci a b then match_lit lit' (Some b) s' else None
      | [] => None
      end
  end.

(** [\b lit \b] anchored at the current position. *)
Definition match_word (lit : str) (prev : option ascii) (s : str) : bool :=
  (at_boundary prev s &&
   match match_lit lit prev s with
   | Some (prev', s') => at_boundary prev' s'
   | None => false
   end)%bool.

Fixpoint search_from (lit : str) (prev : option ascii) (s : str) : bool :=
  (match_word lit prev s ||
   match s with
   | [] => false
   | c :: s' => search_from lit (Some c) s'
   end)%bool.

(** [re.search(r'\b' + re.escape(lit) + r'\b', s, re.IGNORECASE)] as a
    truth value. *)
Definition search_word (lit s : str) : bool := search_from lit None s.

(** The alternatives of [\b(Inc|LLC|Corp|Corporation)\b], in the order
    the pattern tries them. *)
Definition suffixes : list str :=
  [py "Inc"; py "LLC"; py "Corp"; py "Corporation"].

(** The first alternative that matches here and is followed by [\b]:
    the number of characters it consumes. *)
Fixpoint first_alt (alts : list str) (prev : option ascii) (s : str)
  : option nat :=
  match alts with
  | [] => None
  | alt :: alts' =>
      match match_lit alt prev s with
      | Some (prev', s') =>
          if at_boundary prev' s' then Some (length alt)
          else first_alt alts' prev s
      | None => first_alt alts' prev s
      end
  end.

Definition match_suffix (prev : option ascii) (s : str) : option nat :=
  if at_boundary prev s then first_alt suffixes prev s else None.

(** [re.sub(pattern, '', s)]: the non-overlapping matches, leftmost
    first, are dropped.  [skip] counts the characters of the current
    match still to drop. *)
Fixpoint sub_go (skip : nat) (prev : option ascii) (s : str) : str :=
  match s with
  | [] => []
  | c :: s' =>
      match skip with
      | S k => sub_go k (Some c) s'
      | O =>
          match match_suffix prev s with
          | Some (S k) => sub_go k (Some c) s'
          | _ => c :: sub_go 0 (Some c) s'
          end
      end
  end.

(** [re.sub(r'\b(Inc|LLC|Corp|Corporation)\b', '', s, flags=re.IGNORECASE)] *)
Definition sub_suffixes (s : str) : str := sub_go 0 None s.

(** The sentence separator
    [(?<!\w\.\w.)(?<![A-Z][a-z]\.)(?<=\.|\?)\s]
    tried at the character [c]; [before] holds the characters in front
    of it, the nearest first. *)
Definition lookbehind_initials (before : str) : bool :=
  match before with
  | c1 :: c2 :: c3 :: c4 :: _ =>
      (Char.is_word c4 && Ascii.eqb c3 Char.dot && Char.is_word c2 &&
       negb (Ascii.eqb c1 Char.newline))%bool
  | _ => false
  end.

Definition lookbehind_title (before : str) : bool :=
  match before with
  | c1 :: c2 :: c3 :: _ =>
      (Char.is_upper c3 && Char.is_lower c2 && Ascii.eqb c1 Char.dot)%bool
  | _ => false
  end.

Definition lookbehind_stop (before : str) : bool :=
  match before with
  | c1 :: _ => (Ascii.eqb c1 Char.dot || Ascii.eqb c1 Char.question)%bool
  | [] => false
  end.

Definition is_separator (before : str) (c : ascii) : bool :=
  (negb (lookbehind_initials before) && negb (lookbehind_title before) &&
   lookbehind_stop before && Char.is_space c)%bool.

(** [re.split(pattern, s)]: the pieces between the separators, the
    separators themselves dropped, empty pieces kept. *)
Fixpoint split_go (before : str) (s : str) : list str :=
  match s with
  | [] => [[]]
  | c :: s' =>
      let rest := split_go (c :: before) s' in
      if is_separator before c then [] :: rest
      else
        match rest with
        | p :: ps => (c :: p) :: ps
        | [] => [[c]]
        end
  end.

Definition split_sentences (s : str) : list str := split_go [] s.

End Re.

(** Lines 51-52 of [analyze_text]: the transcript is padded with one space
    on each side and split into sentences. *)
Definition segment (text : str) : list str :=
  let padded_text := py " " ++ text ++ py " " in
  Re.split_sentences padded_text.

(** ** Python floats *)

Module Float.

Local Open Scope Z_scope.

(** The integer nearest to [m * 10^ndigits * 2^e], ties to the even
    one: the decimal digits [float.__round__] asks of the exact binary
    value. *)
Definition scaled_half_even (m : positive) (e : Z) (ndigits : nat) : Z :=
  let num := Z.pos m * 10 ^ Z.of_nat ndigits in
  match e with
  | Z.neg p =>
      let den := 2 ^ Z.pos p in
      let q := num / den in
      let r := num mod den in
      match 2 * r ?= den with
      | Lt => q
      | Gt => q + 1
      | Eq => if Z.even q then q else q + 1
      end
  | _ => num * 2 ^ e
  end.

(** [round(x, ndigits)] for [ndigits >= 0]: the decimal with [ndigits]
    digits after the point nearest to [x] (ties to even), converted back
    to the nearest float.  A NaN, an infinity and a zero round to
    themselves. *)
Definition round (x : float) (ndigits : nat) : float :=
  match Prim2SF x with
  | S754_finite sign m e =>
      match scaled_half_even m e ndigits with
      | Z.pos n =>
          SF2Prim (SFdiv prec emax (S754_finite sign n 0)
                     (S754_finite false (Z.to_pos (10 ^ Z.of_nat ndigits)) 0))
      | _ => SF2Prim (S754_zero sign)
      end
  | _ => x
  end.

End Float.

(** ** Data model *)

(** A row of the [companies] table, as [analyze_text] reads it. *)
Record Company := { ticker : str; name : str }.

(** One entry of the ["stocks"] list of an analysis. *)
Record StockMention := {
  stock_name : str;
  sentiment : float;
  explanation : str
}.

(** The dictionary [analyze_text] returns. *)
Record AnalysisResult := { summary : str; stocks : list StockMention }.

(** A row of the [analysis_results] table. *)
Module ResultRow.
Record t := {
  video_id : str;
  tickers : str;
  sentiment : str;
  summary : str;
  analysis_date : str;
  publish_date : str
}.
End ResultRow.

(** ** Collaborators *)

(** What a call into a collaborator does: it returns or it raises. *)
Inductive outcome (A : Type) : Type :=
| Returns (a : A)
| Raises.
Arguments Raises {A}.

(** The dictionaries the two pipelines return; [None] is an absent key. *)
Record SummaryDict := { summary_text : option str }.
Record SentimentDict := { label : option str; score : option float }.

Record Collaborators := {
  (** [SELECT ticker, name FROM companies] on the database file; [Raises]
      is [sqlite3.Error]. *)
  fetch_companies : str -> outcome (list Company);
  (** [summarizer(text, max_length=.., min_length=.., do_sample=False)] *)
  summarizer : str -> nat -> nat -> outcome (list SummaryDict);
  (** [sentiment_analyzer(text)] *)
  sentiment_analyzer : str -> outcome (list SentimentDict)
}.

(** The calls a run makes, in order. *)
Inductive call : Type :=
| CallCompanies (db_file : str)
| CallSummarizer (text : str) (max_length min_length : nat)
| CallSentiment (text : str).

(** A computation that records the collaborator calls it makes. *)
Definition traced (A : Type) : Type := (A * list call)%type.

Definition ret {A : Type} (a : A) : traced A := (a, []).

Definition bind {A B : Type} (m : traced A) (k : A -> traced B) : traced B :=
  let (b, t) := k (fst m) in (b, snd m ++ t).

Notation "x <- m ;; k" := (bind m (fun x => k))
  (at level 61, m at next level, right associativity).

Definition value {A : Type} (m : traced A) : A := fst m.
Definition trace {A : Type} (m : traced A) : list call := snd m.

Section Analyzer.

Variable env : Collaborators.

Definition run_fetch_companies (db_file : str)
  : traced (outcome (list Company)) :=
  (fetch_companies env db_file, [CallCompanies db_file]).

Definition run_summarizer (text : str) (max_length min_length : nat)
  : traced (outcome (list SummaryDict)) :=
  (summarizer env text max_length min_length,
   [CallSummarizer text max_length min_length]).

Definition run_sentiment_analyzer (text : str)
  : traced (outcome (list SentimentDict)) :=
  (sentiment_analyzer env text, [CallSentiment text]).

(** ** [_get_numerical_sentiment] (lines 15-24) *)
Definition _get_numerical_sentiment (result : SentimentDict) : float :=
  let label := match label result with Some l => l | None => py "Neutral" end in
  let score := match score result with Some s => s | None => 1.0%float end in
  if str_eqb label (py "Positive") then (1.0 * score)%float
  else if str_eqb label (py "Negative") then (-1.0 * score)%float
  else 0.0%float.

(** ** [analyze_text], one company (lines 55-100) *)

(** Line 57. *)
Definition clean_name (company : Company) : str :=
  strip (Re.sub_suffixes (name company)).

(** The two [re.search] tests of line 61. *)
Definition ticker_matches (company : Company) (s : str) : bool :=
  Re.search_word (ticker company) s.

Definition name_matches (company : Company) (s : str) : bool :=
  Re.search_word (clean_name company) s.

(** Line 61. *)
Definition mentions_of (sentences : list str) (company : Company) : list str :=
  map strip
    (filter (fun s => (ticker_matches company s || name_matches company s)%bool)
       sentences).

(** Line 66. *)
Definition context_block_of (mentions : list str) : str :=
  strip (join (py ". ") mentions).

(** Lines 70-81: the explanation of a context block. *)
Definition explain (context_block : str) : traced str :=
  if length context_block <? 100 then ret context_block
  else
    explanation_result <- run_summarizer context_block 120 20 ;;
    ret match explanation_result with
        | Returns [] => []
        | Returns (d :: _) =>
            match summary_text d with
            | Some t => t
            | None => context_block (* KeyError, handled at line 78 *)
            end
        | Raises => context_block
        end.

(** Lines 83-95. *)
Definition score_explanation (ticker : str) (explanation : str)
  : traced (option StockMention) :=
  if truthy explanation then
    sentiment_list <- run_sentiment_analyzer explanation ;;
    ret match sentiment_list with
        | Returns (d :: _) =>
            let numerical_sentiment := _get_numerical_sentiment d in
            Some {| stock_name := ticker;
                    sentiment := Float.round numerical_sentiment 4;
                    explanation := explanation |}
        | Returns [] => None
        | Raises => None
        end
  else ret None.

(** The body of the loop over [target_companies]: the record to append,
    if any.  With collaborators that return values of the types above,
    nothing in the body raises outside the two inner [try] blocks, so the
    handler of lines 97-100 has no case here.  Log lines are not
    modelled. *)
Definition process_company (sentences : list str) (company : Company)
  : traced (option StockMention) :=
  let mentions := mentions_of sentences company in
  if negb (truthy mentions) then ret None
  else
    let context_block := context_block_of mentions in
    if negb (truthy context_block) then ret None
    else
      explanation <- explain context_block ;;
      score_explanation (ticker company) explanation.

(** The loop of line 54, with [stock_analysis_results] as it grows. *)
Fixpoint analyze_companies (sentences : list str)
    (target_companies : list Company)
    (stock_analysis_results : list StockMention)
  : traced (list StockMention) :=
  match target_companies with
  | [] => ret stock_analysis_results
  | company :: rest =>
      r <- process_company sentences company ;;
      analyze_companies sentences rest
        match r with
        | Some m => stock_analysis_results ++ [m]
        | None => stock_analysis_results
        end
  end.

Definition empty_analysis : AnalysisResult :=
  {| summary := []; stocks := [] |}.

(** ** [analyze_text] (lines 27-105) *)
Definition analyze_text (text db_file : str) : traced AnalysisResult :=
  if (negb (truthy text) || negb (truthy (strip text)))%bool then
    ret empty_analysis
  else
    companies <- run_fetch_companies db_file ;;
    match companies with
    | Raises => ret empty_analysis
    | Returns target_companies =>
        summary_result <- run_summarizer text 300 75 ;;
        let main_summary :=
          match summary_result with
          | Returns (d :: _) =>
              match summary_text d with Some t => t | None => [] end
          | Returns [] => []
          | Raises => []
          end in
        let sentences := segment text in
        stock_analysis_results <-
          analyze_companies sentences target_companies [] ;;
        ret {| summary := main_summary; stocks := stock_analysis_results |}
    end.

End Analyzer.

(** ** [save_analysis_to_db] (lines 108-139) *)

(** What the storage does during one call: [sqlite3.connect] may raise,
    or the connection is made and [execute]/[commit] may raise. *)
Inductive storage_status : Type :=
| StorageOk
| ConnectFails
| WriteFails.

Record SaveContext := {
  storage : storage_status;
  (** [date.today()], as the text the database keeps. *)
  today : str;
  (** [datetime.strptime(d, "%Y%m%d").strftime("%Y-%m-%d")]; [Raises] is
      the [ValueError] of a malformed date. *)
  format_date : str -> outcome str
}.

Definition table := list ResultRow.t.

(** [INSERT OR REPLACE INTO analysis_results ...]: [video_id] is the
    primary key, so the rows in conflict on it are deleted and the new row
    is inserted. *)
Definition insert_or_replace (r : ResultRow.t) (t : table) : table :=
  filter (fun r' => negb (str_eqb (ResultRow.video_id r') (ResultRow.video_id r))) t ++ [r].

(** The rows of a table with a given key. *)
Definition rows_for (video_id : str) (t : table) : list ResultRow.t :=
  filter (fun r => str_eqb (ResultRow.video_id r) video_id) t.

Section Store.

Variable env : Collaborators.
Variable ctx : SaveContext.

(** Lines 113-114. *)
Definition tickers_str_of (analysis : AnalysisResult) : str :=
  let tickers_found := map stock_name (stocks analysis) in
  join (py ",") tickers_found.

(** Lines 116-125. *)
Definition main_sentiment_label_of (summary_text : str) : traced str :=
  if truthy summary_text then
    r <- run_sentiment_analyzer env summary_text ;;
    ret match r with
        | Returns (summary_sentiment_result :: _) =>
            upper match label summary_sentiment_result with
                  | Some l => l
                  | None => py "Neutral"
                  end
        | Returns [] => py "NEUTRAL" (* IndexError, line 122 *)
        | Raises => py "NEUTRAL"
        end
  else ret (py "NEUTRAL").

Definition save_analysis_to_db (video_id publish_date : str)
    (analysis : AnalysisResult) (t : table) : traced table :=
  match storage ctx with
  | ConnectFails => ret t
  | _ =>
      let tickers_str := tickers_str_of analysis in
      let summary_text := summary analysis in
      main_sentiment_label <- main_sentiment_label_of summary_text ;;
      match format_date ctx publish_date with
      | Raises => ret t
      | Returns formatted_date =>
          match storage ctx with
          | StorageOk =>
              ret (insert_or_replace
                     {| ResultRow.video_id := video_id;
                        ResultRow.tickers := tickers_str;
                        ResultRow.sentiment := main_sentiment_label;
                        ResultRow.summary := summary_text;
                        ResultRow.analysis_date := today ctx;
                        ResultRow.publish_date := formatted_date |} t)
          | _ => ret t
          end
      end
  end.

End Store.

(** ** Derived notions used in the statements *)

(** The record a company contributes, as a list of zero or one element. *)
Definition contribution (env : Collaborators) (sentences : list str)
    (company : Company) : list StockMention :=
  match value (process_company env sentences company) with
  | Some m => [m]
  | None => []
  end.

(** ** The sentence separator, stated on the text *)

(** Where the pieces of a split were cut: the position, in the text that
    was split, of each separator dropped between two pieces. *)
Fixpoint cut_offsets (start : nat) (pieces : list str) : list nat :=
  match pieces with
  | [] => []
  | p :: ps =>
      match ps with
      | [] => []
      | _ :: _ => (start + length p) :: cut_offsets (start + length p + 1) ps
      end
  end.

(** The pieces put back together around the separators. *)
Fixpoint weave (pieces : list str) (seps : str) : str :=
  match pieces with
  | [] => []
  | p :: ps =>
      match seps with
      | [] => p
      | c :: cs => p ++ c :: weave ps cs
      end
  end.

(** The text in front of a position ends with a full stop or a question
    mark. *)
Definition ends_in_stop (pre : str) : Prop :=
  exists p c, pre = p ++ [c] /\ (c = Char.dot \/ c = Char.question).

(** ... ends with a word character, a full stop, a word character and one
    more character that is not a line feed: "U.S." or "e.g.". *)
Definition ends_in_initials (pre : str) : Prop :=
  exists p a b c, pre = p ++ [a; Char.dot; b; c]
    /\ Char.is_word a = true /\ Char.is_word b = true /\ c <> Char.newline.

(** ... ends with an upper-case letter, a lower-case letter and a full
    stop: "Mr.". *)
Definition ends_in_title (pre : str) : Prop :=
  exists p a b, pre = p ++ [a; b; Char.dot]
    /\ Char.is_upper a = true /\ Char.is_lower b = true.

(** The character [c], with the text [pre] in front of it, separates two
    sentences. *)
Definition sentence_break (pre : str) (c : ascii) : Prop :=
  Char.is_space c = true /\ ends_in_stop pre
  /\ ~ ends_in_initials pre /\ ~ ends_in_title pre.

(** A save that reaches the storage with a well-formed date writes this
    row. *)
Definition saved_row (env : Collaborators) (ctx : SaveContext)
    (video_id formatted_date : str) (analysis : AnalysisResult) : ResultRow.t :=
  {| ResultRow.video_id := video_id;
     ResultRow.tickers := tickers_str_of analysis;
     ResultRow.sentiment := value (main_sentiment_label_of env (summary analysis));
     ResultRow.summary := summary analysis;
     ResultRow.analysis_date := today ctx;
     ResultRow.publish_date := formatted_date |}.

(** ** Concrete inputs used by the examples below *)

Module Fixtures.

Definition positive_09 : SentimentDict :=
  {| label := Some (py "Positive"); score := Some 0x1.ccccccccccccdp-1%float |}.


Definition apple : Company := {| ticker := py "AAPL"; name := py "APPLE INC" |}.
Definition tesla : Company := {| ticker := py "TSLA"; name := py "TESLA INC" |}.

(** A company whose name is a legal suffix and nothing else. *)
Definition suffix_only : Company := {| ticker := py "ZZZZ"; name := py "Inc" |}.

Definition db : str := py "finance_data.db".

(** A transcript of one long sentence (more than 100 characters). *)
Definition long_text : str :=
  py "Apple shares rose sharply today after the company reported record quarterly earnings and raised guidance again.".

Definition short_text : str := py "Apple rose. Tesla fell.".

(** Every pipeline works; the summarizer answers with a fixed text. *)
Definition healthy (companies : list Company) : Collaborators :=
  {| fetch_companies := fun _ => Returns companies;
     summarizer := fun _ _ _ => Returns [ {| summary_text := Some (py "A summary.") |} ];
     sentiment_analyzer := fun _ => Returns [positive_09] |}.

(** The company table cannot be read. *)
Definition no_registry : Collaborators :=
  {| fetch_companies := fun _ => Raises;
     summarizer := fun _ _ _ => Returns [ {| summary_text := Some (py "A summary.") |} ];
     sentiment_analyzer := fun _ => Returns [positive_09] |}.

(** The summarizer raises on every call. *)
Definition summarizer_down (companies : list Company) : Collaborators :=
  {| fetch_companies := fun _ => Returns companies;
     summarizer := fun _ _ _ => Raises;
     sentiment_analyzer := fun _ => Returns [positive_09] |}.

(** The summarizer returns an empty list. *)
Definition summarizer_empty (companies : list Company) : Collaborators :=
  {| fetch_companies := fun _ => Returns companies;
     summarizer := fun _ _ _ => Returns [];
     sentiment_analyzer := fun _ => Returns [positive_09] |}.

(** The sentiment pipeline raises on every call. *)
Definition sentiment_down (companies : list Company) : Collaborators :=
  {| fetch_companies := fun _ => Returns companies;
     summarizer := fun _ _ _ => Returns [ {| summary_text := Some (py "A summary.") |} ];
     sentiment_analyzer := fun _ => Raises |}.

End Fixtures.

Module StoreFixtures.

(** A stand-in for [strptime]/[strftime] on well-formed dates: eight
    digits [YYYYMMDD] become [YYYY-MM-DD]; anything else raises. *)
Definition dashed (d : str) : outcome str :=
  match d with
  | [y1; y2; y3; y4; m1; m2; d1; d2] =>
      if forallb Char.is_digit d
      then Returns [y1; y2; y3; y4; "-"%char; m1; m2; "-"%char; d1; d2]
      else Raises
  | _ => Raises
  end.

Definition working : SaveContext :=
  {| storage := StorageOk; today := py "2024-06-02";
     format_date := dashed |}.

Definition first_analysis : AnalysisResult :=
  {| summary := py "Apple rallied.";
     stocks := [ {| stock_name := py "AAPL"; sentiment := 0.5%float;
                    explanation := py "Apple rose." |} ] |}.

Definition second_analysis : AnalysisResult :=
  {| summary := py "Apple and Tesla moved.";
     stocks := [ {| stock_name := py "AAPL"; sentiment := 0.5%float;
                    explanation := py "Apple rose." |};
                 {| stock_name := py "TSLA"; sentiment := (-0.5)%float;
                    explanation := py "Tesla fell." |} ] |}.

Definition other_row : ResultRow.t :=
  {| ResultRow.video_id := py "V0"; ResultRow.tickers := py "MSFT";
     ResultRow.sentiment := py "NEUTRAL"; ResultRow.summary := py "Older.";
     ResultRow.analysis_date := py "2024-05-01"; ResultRow.publish_date := py "2024-04-30" |}.

End StoreFixtures.

From Stdlib Require Import Permutation.

(** ** [caption_downloader.py]: the library functions it uses *)

Module Vtt.

(** The line boundaries of [str.splitlines]: line feed, vertical tab,
    form feed, carriage return and the separators 0x1c..0x1e. *)
Definition is_linebreak (c : ascii) : bool :=
  (Char.between 10 13 c || Char.between 28 30 c)%bool.

Definition is_cr (c : ascii) : bool := N.eqb (Char.code c) 13.
Definition is_lf (c : ascii) : bool := N.eqb (Char.code c) 10.

(** [s.splitlines()]: the lines without their boundaries; a carriage
    return followed by a line feed is one boundary; a boundary at the end
    of the text opens no further line. *)
Fixpoint splitlines (s : str) : list str :=
  match s with
  | [] => []
  | c :: s' =>
      if is_linebreak c then
        match s' with
        | d :: s'' =>
            if (is_cr c && is_lf d)%bool then [] :: splitlines s''
            else [] :: splitlines s'
        | [] => [[]]
        end
      else
        match splitlines s' with
        | l :: ls => (c :: l) :: ls
        | [] => [[c]]
        end
  end.

(** [s.startswith(prefix)] *)
Fixpoint starts_with (prefix s : str) : bool :=
  match prefix with
  | [] => true
  | a :: prefix' =>
      match s with
      | b :: s' => (Ascii.eqb a b && starts_with prefix' s')%bool
      | [] => false
      end
  end.

(** [needle in hay] *)
Fixpoint contains (needle hay : str) : bool :=
  (starts_with needle hay ||
   match hay with
   | [] => false
   | _ :: hay' => contains needle hay'
   end)%bool.

(** The class [[\d:.,\s\-->]] of the cue pattern: a digit, a colon, a full
    stop, a comma, a whitespace character, or a character of the range
    that [\-->] denotes, from the hyphen (45) to [>] (62). *)
Definition in_cue_class (c : ascii) : bool :=
  (Char.is_digit c || N.eqb (Char.code c) 58 || N.eqb (Char.code c) 46
   || N.eqb (Char.code c) 44 || Char.is_space c || Char.between 45 62 c)%bool.

(** The longest prefix of characters that satisfy [p], dropped. *)
Fixpoint drop_while (p : ascii -> bool) (s : str) : str :=
  match s with
  | c :: s' => if p c then drop_while p s' else s
  | [] => []
  end.

(** The literal [prefix] taken off the front of [s]. *)
Fixpoint drop_prefix (prefix s : str) : option str :=
  match prefix with
  | [] => Some s
  | a :: prefix' =>
      match s with
      | b :: s' => if Ascii.eqb a b then drop_prefix prefix' s' else None
      | [] => None
      end
  end.

(** [^[\d:.,\s\-->]+align:start position:\d+%\s*] matched at the start
    of the line: what is left of the line after the match.  Each greedy
    repetition is followed by a character outside its class, so the
    longest run is the only one that can match. *)
Definition match_cue_prefix (line : str) : option str :=
  match line with
  | c :: _ =>
      if in_cue_class c then
        match drop_prefix (py "align:start position:") (drop_while in_cue_class line) with
        | Some rest =>
            match rest with
            | d :: _ =>
                if Char.is_digit d then
                  match drop_while Char.is_digit rest with
                  | p :: rest' =>
                      if N.eqb (Char.code p) 37 then Some (drop_while Char.is_space rest')
                      else None
                  | [] => None
                  end
                else None
            | [] => None
            end
        | None => None
        end
      else None
  | [] => None
  end.

(** [re.sub(r'^[\d:.,\s\-->]+align:start position:\d+%\s*', '', line)] *)
Definition sub_cue_prefix (line : str) : str :=
  match match_cue_prefix line with
  | Some rest => rest
  | None => line
  end.

(** [list(dict.fromkeys(parts))]: the first occurrence of each part, in
    the order of the list. *)
Fixpoint unique (parts : list str) : list str :=
  match parts with
  | [] => []
  | p :: parts' => p :: filter (fun q => negb (str_eqb p q)) (unique parts')
  end.

(** [s.split(sep)] for a separator of one character. *)
Fixpoint split_on (sep : ascii) (s : str) : list str :=
  match s with
  | [] => [[]]
  | c :: s' =>
      if Ascii.eqb c sep then [] :: split_on sep s'
      else
        match split_on sep s' with
        | p :: ps => (c :: p) :: ps
        | [] => [[c]]
        end
  end.

End Vtt.

(** ** [_clean_transcript_text] (caption_downloader.py, lines 7-25) *)

(** The test of line 16, negated: the line is kept. *)
Definition keeps_line (line : str) : bool :=
  negb (negb (truthy (strip line))
        || Vtt.contains (py "WEBVTT") line
        || (Vtt.contains (py "-->") line
            && negb (Vtt.contains (py "align:start") line)))%bool.

(** Lines 14-21: [text_parts] when the loop ends. *)
Definition text_parts_of (raw_text : str) : list str :=
  map (fun line => strip (Vtt.sub_cue_prefix line))
    (filter keeps_line (Vtt.splitlines (strip raw_text))).

(** Line 23. *)
Definition unique_parts_of (raw_text : str) : list str :=
  Vtt.unique (text_parts_of raw_text).

Definition _clean_transcript_text (raw_text : str) : str :=
  if negb (truthy raw_text) then []
  else join (py " ") (unique_parts_of raw_text).

(** ** [get_video_list] (caption_downloader.py, lines 28-35) *)

(** A list comprehension whose body may raise: the first failure is the
    failure of the whole. *)
Fixpoint traverse {A B : Type} (f : A -> outcome B) (l : list A)
  : outcome (list B) :=
  match l with
  | [] => Returns []
  | a :: l' =>
      match f a with
      | Raises => Raises
      | Returns b =>
          match traverse f l' with
          | Raises => Raises
          | Returns bs => Returns (b :: bs)
          end
      end
  end.

Section VideoList.

(** The values [json.loads] builds, and [json.loads] itself; [Raises] is
    [json.JSONDecodeError]. *)
Variable Json : Type.
Variable json_loads : str -> outcome Json.

(** [subprocess.run(cmd, capture_output=True, text=True, check=True)] for
    the channel and the limit: the standard output of [yt-dlp], or
    [CalledProcessError]. *)
Variable yt_dlp_list : str -> Z -> outcome str.

Definition get_video_list (channel_url : str) (limit : Z)
  : outcome (list Json) :=
  match yt_dlp_list channel_url limit with
  | Raises => Raises
  | Returns stdout =>
      traverse json_loads (Vtt.split_on Char.newline (strip stdout))
  end.

End VideoList.

(** ** [get_captions_only] (caption_downloader.py, lines 37-66) *)

(** What the call of [yt-dlp] for one video leaves behind: the call
    returns or raises ([CalledProcessError], [TimeoutExpired]), and the
    caption file [<video_id>.en.vtt] is absent, or present with a text
    ([Raises]: reading it as UTF-8 fails). *)
Record CaptionRun := {
  yt_dlp_captions : outcome unit;
  caption_file : option (outcome str)
}.

(** The value returned, and whether the caption file is still there. *)
Record CaptionResult := {
  transcript : option str;
  caption_file_left : bool
}.

Definition get_captions_only (run : CaptionRun) : CaptionResult :=
  match yt_dlp_captions run with
  | Returns _ =>
      match caption_file run with
      | Some (Returns raw_text) =>
          let clean_text := _clean_transcript_text raw_text in
          (* caption_file.unlink() *)
          {| transcript := Some clean_text; caption_file_left := false |}
      | Some Raises =>
          (* the handler of line 60 unlinks the file *)
          {| transcript := None; caption_file_left := false |}
      | None => {| transcript := None; caption_file_left := false |}
      end
  | Raises =>
      (* the handler of line 60: the file, if any, is unlinked *)
      {| transcript := None; caption_file_left := false |}
  end.

(** ** [process_single_video] (main.py, lines 31-61) *)

(** The entries of a video dictionary the function reads; [None] is an
    absent key or a null. *)
Module Video.
Record t := { id : option str; upload_date : option str }.
End Video.

Definition DB_FILE : str := py "finance_data.db".

Section Pipeline.

Variable env : Collaborators.
Variable ctx : SaveContext.

(** What [yt-dlp] leaves behind for each video. *)
Variable captions : str -> CaptionRun.

Definition process_single_video (video_details : Video.t) (t : table)
  : traced table :=
  match Video.id video_details, Video.upload_date video_details with
  | Some video_id, Some publish_date =>
      if (negb (truthy video_id) || negb (truthy publish_date))%bool then ret t
      else
        match transcript (get_captions_only (captions video_id)) with
        | Some transcript =>
            if negb (truthy transcript) then ret t
            else
              analysis <- analyze_text env transcript DB_FILE ;;
              save_analysis_to_db env ctx video_id publish_date analysis t
        | None => ret t
        end
  | _, _ => ret t
  end.

End Pipeline.

(** ** [setup_database] (setup_database.py, lines 50-53): the rows it
    inserts *)

(** [re.sub(r'\s+', ' ', s)]: every run of whitespace becomes one space.
    [in_run] tells that the character before was whitespace. *)
Fixpoint collapse_go (in_run : bool) (s : str) : str :=
  match s with
  | [] => []
  | c :: s' =>
      if Char.is_space c then
        if in_run then collapse_go true s'
        else Char.space :: collapse_go true s'
      else c :: collapse_go false s'
  end.

Definition collapse_whitespace (s : str) : str := collapse_go false s.

(** Line 51: the name stored for a title. *)
Definition normalize_title (title : str) : str :=
  upper (strip (collapse_whitespace title)).

(** Lines 50-53: the rows built from the downloaded entries, each a
    ticker and a title. *)
Definition companies_to_insert (data : list (str * str)) : list Company :=
  map (fun v => {| ticker := fst v; name := normalize_title (snd v) |}) data.

(** ** Notions used in the statements on the added code *)

(** [l1] is [l2] with some elements left out. *)
Inductive subsequence {A : Type} : list A -> list A -> Prop :=
| subsequence_nil : subsequence [] []
| subsequence_skip (x : A) (l1 l2 : list A) :
    subsequence l1 l2 -> subsequence l1 (x :: l2)
| subsequence_keep (x : A) (l1 l2 : list A) :
    subsequence l1 l2 -> subsequence (x :: l1) (x :: l2).

(** The last character of a text. *)
Definition last_char (s : str) : option ascii := hd_error (rev s).

(** Between the text [l] and the text [r] that follows it, exactly one
    side shows a word character: the place is a word boundary. *)
Definition word_edge (l r : str) : bool :=
  xorb (Re.word_opt (last_char l)) (Re.word_opt (hd_error r)).

(** Two texts of the same length whose characters agree up to case. *)
Definition same_ci (a b : str) : Prop :=
  Forall2 (fun x y => Char.eqb_ci x y = true) a b.

(** [lit] stands in [s] as a whole word, up to case. *)
Definition occurs_as_word (lit s : str) : Prop :=
  exists pre mid post,
    s = pre ++ mid ++ post
    /\ same_ci lit mid
    /\ word_edge pre (mid ++ post) = true
    /\ word_edge (pre ++ mid) post = true.

(** Two environments whose summarizers agree on every call made for a
    company (output bounds 120 and 20), and which share the company table
    and the sentiment pipeline. *)
Definition same_but_main_summary (env1 env2 : Collaborators) : Prop :=
  (forall db_file, fetch_companies env1 db_file = fetch_companies env2 db_file)
  /\ (forall text, sentiment_analyzer env1 text = sentiment_analyzer env2 text)
  /\ (forall text, summarizer env1 text 120 20 = summarizer env2 text 120 20).

(** ** Concrete inputs for the added statements *)

Module MoreFixtures.

(** The summarizer raises on the whole transcript (output bounds 300 and
    75) and answers on a context block. *)
Definition main_summary_down (companies : list Company) : Collaborators :=
  {| fetch_companies := fun _ => Returns companies;
     summarizer := fun _ max_length _ =>
       if max_length =? 300 then Raises
       else Returns [ {| summary_text := Some (py "A summary.") |} ];
     sentiment_analyzer := fun _ => Returns [Fixtures.positive_09] |}.

(** A caption file as [yt-dlp] writes it. *)
Definition vtt : str :=
  py "WEBVTT
Kind: captions

00:00:01.000 --> 00:00:03.000 align:start position:0%
Apple rose.
00:00:03.000 --> 00:00:05.000 align:start position:0%
Apple rose.
00:00:05.000 --> 00:00:07.000
Tesla fell.".

Definition captions_ok (video_id : str) : CaptionRun :=
  {| yt_dlp_captions := Returns tt; caption_file := Some (Returns vtt) |}.

Definition captions_missing (video_id : str) : CaptionRun :=
  {| yt_dlp_captions := Returns tt; caption_file := None |}.

Definition video_1 : Video.t :=
  {| Video.id := Some (py "V1"); Video.upload_date := Some (py "20240601") |}.

Definition video_without_date : Video.t :=
  {| Video.id := Some (py "V1"); Video.upload_date := None |}.

End MoreFixtures.

Module ListFixtures.

(** A stand-in for [json.loads] that keeps the text of a line and, as
    [json.loads] does, rejects the empty string. *)
Definition loads (line : str) : outcome str :=
  match line with
  | [] => Raises
  | _ :: _ => Returns line
  end.

(** [yt-dlp] prints two lines, or nothing. *)
Definition two_videos (channel_url : str) (limit : Z) : outcome str :=
  Returns (py "{1}
{2}
").

Definition no_video (channel_url : str) (limit : Z) : outcome str :=
  Returns (py "").

End ListFixtures.

(** The only whitespace of a text is the single space between two other
    characters or at an end; [after_space] tells that the character
    before was a space. *)
Fixpoint single_spaced (after_space : bool) (s : str) : bool :=
  match s with
  | [] => true
  | c :: s' =>
      if Char.is_space c then
        (Ascii.eqb c Char.space && negb after_space && single_spaced true s')%bool
      else single_spaced false s'
  end.

(** ** The range of a stored sentiment *)

(** [-1 <= x <= 1]; false on a NaN. *)
Definition within_unit (x : float) : bool := ((-1 <=? x) && (x <=? 1))%float.

(** The float nearest to [k / 10000], with the sign given: what
    [round(_, 4)] returns for the scaled integer [k]. *)
Definition quotient (sign : bool) (k : positive) : float :=
  SF2Prim (SFdiv prec emax (S754_finite sign k 0) (S754_finite false 10000 0)).

(** A float of magnitude at most one, read off its mantissa and
    exponent. *)
Definition unit_bits (x : float) : Prop :=
  match Prim2SF x with
  | S754_finite _ m e => exists p, e = Z.neg p /\ (Z.pos m <= 2 ^ Z.pos p)%Z
  | S754_zero _ => True
  | _ => False
  end.

Module RangeFixtures.

(** The largest score below one, on a negative label. *)
Definition negative_almost_1 : SentimentDict :=
  {| label := Some (py "Negative"); score := Some 0x1.fffffffffffffp-1%float |}.

(** A sentiment pipeline that answers without a score. *)
Definition positive_without_score : SentimentDict :=
  {| label := Some (py "Positive"); score := None |}.

Definition bearish (companies : list Company) : Collaborators :=
  {| fetch_companies := fun _ => Returns companies;
     summarizer := fun _ _ _ => Returns [ {| summary_text := Some (py "A summary.") |} ];
     sentiment_analyzer := fun _ => Returns [negative_almost_1] |}.

End RangeFixtures.

(** * Properties *)

(** ** The trace monad *)

Lemma value_bind {A B} (m : traced A) (k : A -> traced B) :
  value (x <- m ;; k x) = value (k (value m)).
Proof. unfold bind, value. destruct (k (fst m)); reflexivity. Qed.

Lemma trace_bind {A B} (m : traced A) (k : A -> traced B) :
  trace (x <- m ;; k x) = trace m ++ trace (k (value m)).
Proof. unfold bind, value, trace. destruct (k (fst m)); reflexivity. Qed.

(** ** Strings *)

Lemma truthy_true {A} (l : list A) : truthy l = true <-> l <> [].
Proof. destruct l; simpl; split; congruence. Qed.

Lemma lstrip_blank (s : str) :
  forallb Char.is_space s = true -> lstrip s = [].
Proof.
  induction s as [|c s IH]; simpl; [reflexivity|].
  intros H. apply andb_prop in H as [Hc Hs]. rewrite Hc. auto.
Qed.

Lemma strip_blank (s : str) :
  forallb Char.is_space s = true -> strip s = [].
Proof.
  intros H. unfold strip, rstrip. rewrite (lstrip_blank _ H). reflexivity.
Qed.

Lemma str_eqb_eq (a b : str) : str_eqb a b = true <-> a = b.
Proof. unfold str_eqb. destruct (list_eq_dec ascii_dec a b); split; congruence. Qed.

Lemma str_eqb_refl (a : str) : str_eqb a a = true.
Proof. apply str_eqb_eq. reflexivity. Qed.

(** ** The library functions on concrete inputs *)

Example segment_initials : segment (py "U.S. stocks rose.") = [py " U.S. stocks rose."; py ""].
Proof. vm_compute. reflexivity. Qed.

Example segment_mixed : segment (py "Plan B. Next step? Yes. Mr. Smith, e.g. here.")
  = [py " Plan B."; py "Next step?"; py "Yes."; py "Mr. Smith, e.g. here."; py ""].
Proof. vm_compute. reflexivity. Qed.

Example sub_suffixes_examples : strip (Re.sub_suffixes (py "Apple Inc")) = py "Apple"
  /\ strip (Re.sub_suffixes (py "CORPORATION")) = py ""
  /\ strip (Re.sub_suffixes (py "Incorporated Corp LLC")) = py "Incorporated"
  /\ Re.sub_suffixes (py "Corp-Inc") = py "-".
Proof. vm_compute. repeat split. Qed.

Example search_word_examples : Re.search_word (py "") (py " Hello") = true
  /\ Re.search_word (py "") (py " ... ") = false
  /\ Re.search_word (py "apple") (py " I like Apple.") = true
  /\ Re.search_word (py "app") (py " I like Apple.") = false.
Proof. vm_compute. repeat split. Qed.

(** A run from end to end: the table is read, the transcript is
    summarized, and each company found is scored on its own sentence. *)
Example analyze_short_text :
  analyze_text (Fixtures.healthy [Fixtures.apple; Fixtures.tesla])
    Fixtures.short_text Fixtures.db
  = ({| summary := py "A summary.";
        stocks := [ {| stock_name := py "AAPL";
                       sentiment := 0x1.ccccccccccccdp-1%float;
                       explanation := py "Apple rose." |};
                    {| stock_name := py "TSLA";
                       sentiment := 0x1.ccccccccccccdp-1%float;
                       explanation := py "Tesla fell." |} ] |},
     [ CallCompanies Fixtures.db;
       CallSummarizer Fixtures.short_text 300 75;
       CallSentiment (py "Apple rose.");
       CallSentiment (py "Tesla fell.") ]).
Proof. vm_compute. reflexivity. Qed.

(** [round(x, 4)] on a few values: a tie on the exact binary value goes to
    the even digit, and a small negative number rounds to [-0.0]. *)
Example round_examples :
  Float.round 0.5 4 = 0.5%float
  /\ Float.round 0.125 2 = 0x1.eb851eb851eb8p-4%float
  /\ Float.round 0.375 2 = 0x1.851eb851eb852p-2%float
  /\ Float.round 1.5 0 = 2%float
  /\ Float.round 2.5 0 = 2%float
  /\ Float.round (-0x1.4f8b588e368f1p-17) 4 = (-0)%float.
Proof. vm_compute. repeat split. Qed.

(** ** The loop over the companies *)

Lemma analyze_companies_value env sentences cs acc :
  value (analyze_companies env sentences cs acc)
  = acc ++ flat_map (contribution env sentences) cs.
Proof.
  revert acc. induction cs as [|c cs IH]; intros acc; simpl.
  - unfold ret, value. simpl. now rewrite app_nil_r.
  - rewrite value_bind, IH. unfold contribution.
    destruct (value (process_company env sentences c)); simpl.
    + now rewrite <- app_assoc.
    + reflexivity.
Qed.

Lemma analyze_companies_trace env sentences cs acc :
  trace (analyze_companies env sentences cs acc)
  = flat_map (fun c => trace (process_company env sentences c)) cs.
Proof.
  revert acc. induction cs as [|c cs IH]; intros acc; simpl.
  - reflexivity.
  - rewrite trace_bind, IH. reflexivity.
Qed.

(** A transcript that is not blank, with a readable company table: the
    stocks of the analysis are the contributions of the companies, in the
    order of the table. *)
Lemma analyze_text_stocks env text db_file cs :
  strip text <> [] ->
  fetch_companies env db_file = Returns cs ->
  stocks (value (analyze_text env text db_file))
  = flat_map (contribution env (segment text)) cs.
Proof.
  intros Hne Hcs. unfold analyze_text.
  assert (Ht : truthy text = true).
  { apply truthy_true. intros ->. now apply Hne. }
  apply truthy_true in Hne. rewrite Ht, Hne. simpl.
  rewrite value_bind. unfold run_fetch_companies at 1. unfold value at 2. simpl.
  rewrite Hcs. rewrite !value_bind. unfold ret, value at 1. simpl.
  apply analyze_companies_value.
Qed.

Lemma analyze_text_trace env text db_file cs :
  strip text <> [] ->
  fetch_companies env db_file = Returns cs ->
  trace (analyze_text env text db_file)
  = CallCompanies db_file :: CallSummarizer text 300 75
    :: flat_map (fun c => trace (process_company env (segment text) c)) cs.
Proof.
  intros Hne Hcs. unfold analyze_text.
  assert (Ht : truthy text = true).
  { apply truthy_true. intros ->. now apply Hne. }
  apply truthy_true in Hne. rewrite Ht, Hne. simpl.
  rewrite trace_bind. unfold run_fetch_companies at 1 2. unfold value at 1, trace at 1. simpl.
  rewrite Hcs. rewrite !trace_bind. unfold run_summarizer at 1. unfold trace at 1. simpl.
  rewrite analyze_companies_trace. unfold ret, trace at 2. simpl.
  now rewrite app_nil_r.
Qed.

(** C4: [analyze_text] gives the empty analysis, and calls no
    collaborator at all, when the transcript is empty or made of
    whitespace only; and it gives the empty analysis, after the one read
    of the company table and nothing else, when that read raises: the
    error of the table does not reach the caller. *)
Theorem analyze_text_fails_soft (env : Collaborators) (text db_file : str) :
  (forallb Char.is_space text = true ->
   analyze_text env text db_file = ({| summary := []; stocks := [] |}, []))
  /\ (fetch_companies env db_file = Raises ->
      value (analyze_text env text db_file) = {| summary := []; stocks := [] |}
      /\ incl (trace (analyze_text env text db_file)) [CallCompanies db_file]).
Proof.
  split.
  - intros Hblank. unfold analyze_text.
    rewrite (strip_blank _ Hblank). simpl. rewrite orb_true_r. reflexivity.
  - intros Hfail. unfold analyze_text.
    destruct (negb (truthy text) || negb (truthy (strip text)))%bool.
    + split; [reflexivity|]. intros x [].
    + unfold run_fetch_companies, bind. simpl. rewrite Hfail. simpl.
      split; [reflexivity|]. apply incl_refl.
Qed.

Lemma analyze_text_fails_soft_witness :
  analyze_text (Fixtures.healthy [Fixtures.apple]) (py "  ") Fixtures.db
    = ({| summary := []; stocks := [] |}, [])
  /\ analyze_text (Fixtures.healthy [Fixtures.apple]) (py "") Fixtures.db
    = ({| summary := []; stocks := [] |}, [])
  /\ value (analyze_text Fixtures.no_registry Fixtures.short_text Fixtures.db)
    = {| summary := []; stocks := [] |}.
Proof.
  split; [|split].
  - apply (analyze_text_fails_soft (Fixtures.healthy [Fixtures.apple]) (py "  ") Fixtures.db).
    reflexivity.
  - apply (analyze_text_fails_soft (Fixtures.healthy [Fixtures.apple]) (py "") Fixtures.db).
    reflexivity.
  - apply (analyze_text_fails_soft Fixtures.no_registry Fixtures.short_text Fixtures.db).
    reflexivity.
Defined.

(** ** One company *)

Lemma context_block_of_nil : context_block_of [] = [].
Proof. reflexivity. Qed.

(** With a context block that is not empty, the loop body is the
    explanation followed by the scoring. *)
Lemma process_company_explained env sentences c :
  context_block_of (mentions_of sentences c) <> [] ->
  process_company env sentences c
  = (explanation <- explain env (context_block_of (mentions_of sentences c)) ;;
     score_explanation env (ticker c) explanation).
Proof.
  intros Hctx. unfold process_company.
  destruct (mentions_of sentences c) as [|m ms] eqn:Hm.
  - now rewrite context_block_of_nil in Hctx.
  - apply truthy_true in Hctx. simpl truthy at 1. simpl negb at 1. cbv iota.
    now rewrite Hctx.
Qed.

Lemma long_block_not_empty (s : str) : 100 <= length s -> s <> [].
Proof. intros H ->. simpl in H. lia. Qed.

(** The stocks of an analysis pass over a company that contributes
    nothing. *)
Lemma flat_map_skip {A B} (f : A -> list B) (l1 l2 : list A) (a : A) :
  f a = [] -> flat_map f (l1 ++ a :: l2) = flat_map f (l1 ++ l2).
Proof.
  intros Ha. rewrite !flat_map_app. simpl. now rewrite Ha.
Qed.

(** C8: a context block that is not empty and is shorter than 100
    characters is not sent to the summarizer: the only call made for the
    company is the sentiment call, on the context block itself, and the
    explanation of the record the company gets is the context block,
    character for character. *)
Theorem short_context_bypasses_summarizer
    (env : Collaborators) (sentences : list str) (c : Company) :
  let context_block := context_block_of (mentions_of sentences c) in
  context_block <> [] ->
  length context_block < 100 ->
  trace (process_company env sentences c) = [CallSentiment context_block]
  /\ (forall t max_length min_length,
        ~ In (CallSummarizer t max_length min_length)
             (trace (process_company env sentences c)))
  /\ (forall m, value (process_company env sentences c) = Some m ->
        explanation m = context_block /\ stock_name m = ticker c)
  /\ (forall d ds, sentiment_analyzer env context_block = Returns (d :: ds) ->
        exists m, value (process_company env sentences c) = Some m).
Proof.
  intros context_block Hne Hshort.
  rewrite (process_company_explained env sentences c Hne).
  fold context_block. unfold explain.
  apply Nat.ltb_lt in Hshort. rewrite Hshort.
  unfold score_explanation, bind, ret, run_sentiment_analyzer, value, trace. simpl.
  apply truthy_true in Hne. rewrite Hne. simpl.
  split; [reflexivity|]. split.
  - intros t a b [H|[]]. discriminate.
  - split.
    + intros m Hm. destruct (sentiment_analyzer env context_block) as [[|d ds]|];
        inversion Hm; subst; simpl; auto.
    + intros d ds ->. eauto.
Qed.

(** C2: with a context block of 100 characters or more, a summarizer
    that raises makes the raw context block the explanation; when the
    sentiment pipeline answers on that text the company gets its record,
    which is in the stocks of the analysis. *)
Theorem summarizer_failure_falls_back
    (env : Collaborators) (text db_file : str) (cs : list Company)
    (c : Company) (d : SentimentDict) (ds : list SentimentDict) :
  let context_block := context_block_of (mentions_of (segment text) c) in
  strip text <> [] ->
  fetch_companies env db_file = Returns cs ->
  In c cs ->
  100 <= length context_block ->
  summarizer env context_block 120 20 = Raises ->
  sentiment_analyzer env context_block = Returns (d :: ds) ->
  value (explain env context_block) = context_block
  /\ value (process_company env (segment text) c)
     = Some {| stock_name := ticker c;
               sentiment := Float.round (_get_numerical_sentiment d) 4;
               explanation := context_block |}
  /\ In {| stock_name := ticker c;
           sentiment := Float.round (_get_numerical_sentiment d) 4;
           explanation := context_block |}
        (stocks (value (analyze_text env text db_file))).
Proof.
  intros context_block Htext Hfetch Hin Hlong Hsum Hsent.
  assert (Hne : context_block <> []) by now apply long_block_not_empty.
  assert (Hexp : value (explain env context_block) = context_block).
  { unfold explain. apply Nat.ltb_ge in Hlong. rewrite Hlong.
    rewrite value_bind. unfold run_summarizer, value. simpl. now rewrite Hsum. }
  assert (Hproc : value (process_company env (segment text) c)
     = Some {| stock_name := ticker c;
               sentiment := Float.round (_get_numerical_sentiment d) 4;
               explanation := context_block |}).
  { rewrite (process_company_explained env (segment text) c Hne).
    fold context_block. rewrite value_bind, Hexp. unfold score_explanation.
    apply truthy_true in Hne. rewrite Hne. rewrite value_bind.
    unfold run_sentiment_analyzer, value. simpl. now rewrite Hsent. }
  split; [exact Hexp|]. split; [exact Hproc|].
  rewrite (analyze_text_stocks env text db_file Htext Hfetch).
  apply in_flat_map. exists c. split; [exact Hin|].
  unfold contribution. rewrite Hproc. now left.
Qed.

(** C10: with a context block of 100 characters or more, a summarizer
    that returns an empty list, or a first result whose text is empty,
    leaves the explanation empty: the sentiment pipeline is not called,
    the company gets no record, whatever the sentiment pipeline would say
    of the raw context block, and the analysis goes on as if the company
    were not in the table. *)
Theorem empty_summary_drops_company
    (env : Collaborators) (sentences : list str) (c : Company)
    (before after : list Company) (acc : list StockMention) :
  let context_block := context_block_of (mentions_of sentences c) in
  100 <= length context_block ->
  (summarizer env context_block 120 20 = Returns []
   \/ exists d ds, summarizer env context_block 120 20 = Returns (d :: ds)
                   /\ summary_text d = Some []) ->
  value (explain env context_block) = []
  /\ process_company env sentences c
     = (None, [CallSummarizer context_block 120 20])
  /\ value (analyze_companies env sentences (before ++ c :: after) acc)
     = value (analyze_companies env sentences (before ++ after) acc).
Proof.
  intros context_block Hlong Hsum.
  assert (Hne : context_block <> []) by now apply long_block_not_empty.
  assert (Hexp : explain env context_block
                 = ([], [CallSummarizer context_block 120 20])).
  { unfold explain. apply Nat.ltb_ge in Hlong. rewrite Hlong.
    unfold bind, run_summarizer, ret. simpl.
    destruct Hsum as [-> | (d & ds & -> & ->)]; reflexivity. }
  assert (Hproc : process_company env sentences c
                  = (None, [CallSummarizer context_block 120 20])).
  { rewrite (process_company_explained env sentences c Hne).
    fold context_block. rewrite Hexp. reflexivity. }
  split; [now rewrite Hexp|]. split; [exact Hproc|].
  rewrite !analyze_companies_value. f_equal.
  apply flat_map_skip. unfold contribution. now rewrite Hproc.
Qed.

(** C7: when the sentiment pipeline raises, or returns an empty list, on
    the explanation of a company, the company gets no record, neutral or
    other, and the loop goes on: the stocks of the analysis are those of
    the companies before it followed by those of the companies after
    it. *)
Theorem sentiment_failure_skips_company
    (env : Collaborators) (text db_file : str) (c : Company)
    (before after : list Company) :
  let context_block := context_block_of (mentions_of (segment text) c) in
  let explanation := value (explain env context_block) in
  strip text <> [] ->
  fetch_companies env db_file = Returns (before ++ c :: after) ->
  explanation <> [] ->
  (sentiment_analyzer env explanation = Raises
   \/ sentiment_analyzer env explanation = Returns []) ->
  value (process_company env (segment text) c) = None
  /\ stocks (value (analyze_text env text db_file))
     = flat_map (contribution env (segment text)) before
       ++ flat_map (contribution env (segment text)) after.
Proof.
  intros context_block explanation Htext Hfetch Hexp Hsent.
  assert (Hproc : value (process_company env (segment text) c) = None).
  { unfold process_company.
    destruct (negb (truthy (mentions_of (segment text) c))); [reflexivity|].
    fold context_block.
    destruct (negb (truthy context_block)); [reflexivity|].
    rewrite value_bind. fold explanation. unfold score_explanation.
    apply truthy_true in Hexp. rewrite Hexp. rewrite value_bind.
    unfold run_sentiment_analyzer, value. simpl.
    destruct Hsent as [-> | ->]; reflexivity. }
  split; [exact Hproc|].
  rewrite (analyze_text_stocks env text db_file Htext Hfetch).
  rewrite flat_map_app. simpl. unfold contribution at 2. now rewrite Hproc.
Qed.

Lemma short_context_bypasses_summarizer_witness :
  trace (process_company (Fixtures.healthy [Fixtures.apple; Fixtures.tesla])
           (segment Fixtures.short_text) Fixtures.apple)
  = [CallSentiment (py "Apple rose.")].
Proof.
  refine (proj1 (short_context_bypasses_summarizer
                   (Fixtures.healthy [Fixtures.apple; Fixtures.tesla])
                   (segment Fixtures.short_text) Fixtures.apple _ _)).
  - vm_compute. discriminate.
  - vm_compute. lia.
Defined.

Lemma summarizer_failure_falls_back_witness :
  value (explain (Fixtures.summarizer_down [Fixtures.apple]) Fixtures.long_text)
  = Fixtures.long_text.
Proof.
  refine (proj1 (summarizer_failure_falls_back
                   (Fixtures.summarizer_down [Fixtures.apple])
                   Fixtures.long_text Fixtures.db (cs := [Fixtures.apple])
                   Fixtures.apple (d := Fixtures.positive_09) (ds := [])
                   _ _ _ _ _ _)).
  - vm_compute. discriminate.
  - reflexivity.
  - left. reflexivity.
  - vm_compute. lia.
  - reflexivity.
  - reflexivity.
Defined.

Lemma empty_summary_drops_company_witness :
  process_company (Fixtures.summarizer_empty [Fixtures.apple])
    (segment Fixtures.long_text) Fixtures.apple
  = (None, [CallSummarizer Fixtures.long_text 120 20]).
Proof.
  refine (proj1 (proj2 (empty_summary_drops_company
                   (Fixtures.summarizer_empty [Fixtures.apple])
                   (segment Fixtures.long_text) Fixtures.apple [] [] [] _ _))).
  - vm_compute. lia.
  - left. reflexivity.
Defined.

Lemma sentiment_failure_skips_company_witness :
  value (process_company (Fixtures.sentiment_down [Fixtures.apple; Fixtures.tesla])
           (segment Fixtures.short_text) Fixtures.apple) = None.
Proof.
  refine (proj1 (sentiment_failure_skips_company
                   (Fixtures.sentiment_down [Fixtures.apple; Fixtures.tesla])
                   Fixtures.short_text Fixtures.db Fixtures.apple [] [Fixtures.tesla]
                   _ _ _ _)).
  - vm_compute. discriminate.
  - reflexivity.
  - vm_compute. discriminate.
  - left. reflexivity.
Defined.

(** ** The name pattern of a company whose clean name is empty *)

(** The pattern [\b\b] is found in every sentence that holds a word
    character. *)
Lemma search_from_empty (s : str) (prev : option ascii) :
  Re.word_opt prev = false ->
  existsb Char.is_word s = true ->
  Re.search_from [] prev s = true.
Proof.
  revert prev. induction s as [|c s IH]; intros prev Hprev Hex; simpl in Hex.
  - discriminate.
  - simpl. unfold Re.match_word, Re.at_boundary. simpl. rewrite Hprev.
    destruct (Char.is_word c) eqn:Hc; simpl.
    + reflexivity.
    + apply IH; simpl; assumption.
Qed.

Lemma empty_name_matches (c : Company) (s : str) :
  clean_name c = [] ->
  existsb Char.is_word s = true ->
  name_matches c s = true.
Proof.
  intros Hc Hs. unfold name_matches, Re.search_word. rewrite Hc.
  now apply search_from_empty.
Qed.

(** C1, on the code: the company [ZZZZ] named "Inc" has an empty clean
    name; the sentence of the transcript "Markets rose today." does not
    hold its ticker, the name pattern finds the sentence all the same, and
    the analysis reports the company with that sentence as its
    explanation. *)
Theorem empty_name_pattern_selects_sentence :
  clean_name Fixtures.suffix_only = []
  /\ segment (py "Markets rose today.") = [py " Markets rose today."; []]
  /\ ticker_matches Fixtures.suffix_only (py " Markets rose today.") = false
  /\ name_matches Fixtures.suffix_only (py " Markets rose today.") = true
  /\ map (fun m => (stock_name m, explanation m))
       (stocks (value (analyze_text (Fixtures.healthy [Fixtures.suffix_only])
                         (py "Markets rose today.") Fixtures.db)))
     = [(py "ZZZZ", py "Markets rose today.")].
Proof. vm_compute. repeat split. Qed.

(** ** Segmentation *)

Lemma rev_eq_cons {A} (l r : list A) (a : A) :
  rev l = a :: r <-> l = rev r ++ [a].
Proof.
  split; intros H.
  - rewrite <- (rev_involutive l), H. reflexivity.
  - rewrite H, rev_app_distr, rev_involutive. reflexivity.
Qed.

Lemma ascii_eqb_true (a b : ascii) : Ascii.eqb a b = true <-> a = b.
Proof. apply Ascii.eqb_eq. Qed.

Lemma lookbehind_stop_spec (pre : str) :
  Re.lookbehind_stop (rev pre) = true <-> ends_in_stop pre.
Proof.
  unfold Re.lookbehind_stop, ends_in_stop.
  destruct (rev pre) as [|c1 r] eqn:E.
  - split; [discriminate|]. intros (p & c & -> & _).
    rewrite rev_app_distr in E. discriminate.
  - apply rev_eq_cons in E. rewrite orb_true_iff, !ascii_eqb_true. split.
    + intros H. exists (rev r), c1. auto.
    + intros (p & c & Hp & H). rewrite E in Hp.
      apply app_inj_tail in Hp as [_ ->]. exact H.
Qed.

Lemma lookbehind_title_spec (pre : str) :
  Re.lookbehind_title (rev pre) = true <-> ends_in_title pre.
Proof.
  unfold Re.lookbehind_title, ends_in_title. split.
  - destruct (rev pre) as [|c1 [|c2 [|c3 r]]] eqn:E; try discriminate.
    intros H. apply andb_prop in H as [H H1]. apply andb_prop in H as [H3 H2].
    apply ascii_eqb_true in H1. subst c1.
    exists (rev r), c3, c2. split; [|auto].
    rewrite <- (rev_involutive pre), E. simpl. now rewrite <- !app_assoc.
  - intros (p & a & b & -> & Ha & Hb).
    rewrite rev_app_distr. simpl. rewrite Ha, Hb. reflexivity.
Qed.

Lemma lookbehind_initials_spec (pre : str) :
  Re.lookbehind_initials (rev pre) = true <-> ends_in_initials pre.
Proof.
  unfold Re.lookbehind_initials, ends_in_initials. split.
  - destruct (rev pre) as [|c1 [|c2 [|c3 [|c4 r]]]] eqn:E; try discriminate.
    intros H. apply andb_prop in H as [H H1]. apply andb_prop in H as [H H2].
    apply andb_prop in H as [H4 H3]. apply ascii_eqb_true in H3. subst c3.
    exists (rev r), c4, c2, c1. repeat split; auto.
    + rewrite <- (rev_involutive pre), E. simpl. now rewrite <- !app_assoc.
    + intros ->. discriminate.
  - intros (p & a & b & c & -> & Ha & Hb & Hc).
    rewrite rev_app_distr. simpl. rewrite Ha, Hb. simpl.
    destruct (Ascii.eqb c Char.newline) eqn:E; [|reflexivity].
    apply ascii_eqb_true in E. contradiction.
Qed.

(** The separator test of the scan is the break stated on the text. *)
Lemma is_separator_spec (pre : str) (c : ascii) :
  Re.is_separator (rev pre) c = true <-> sentence_break pre c.
Proof.
  unfold Re.is_separator, sentence_break.
  rewrite !andb_true_iff, !negb_true_iff.
  rewrite <- lookbehind_stop_spec, <- lookbehind_title_spec,
    <- lookbehind_initials_spec.
  rewrite <- !not_true_iff_false. tauto.
Qed.

Lemma split_go_not_nil (before s : str) : Re.split_go before s <> [].
Proof.
  revert before. induction s as [|c s IH]; intros before; simpl.
  - discriminate.
  - destruct (Re.is_separator before c); [discriminate|].
    destruct (Re.split_go (c :: before) s); discriminate.
Qed.

Lemma cut_offsets_cons_char (n : nat) (c : ascii) (p : str) (ps : list str) :
  cut_offsets n ((c :: p) :: ps) = cut_offsets (S n) (p :: ps).
Proof.
  simpl. destruct ps as [|q qs]; [reflexivity|].
  replace (n + S (length p)) with (S (n + length p)) by lia. reflexivity.
Qed.

Lemma split_go_cuts (s before : str) (i : nat) :
  In i (cut_offsets (length before) (Re.split_go before s))
  <-> exists s1 c s2, s = s1 ++ c :: s2
        /\ i = length before + length s1
        /\ Re.is_separator (rev s1 ++ before) c = true.
Proof.
  revert before. induction s as [|c s IH]; intros before.
  - simpl. split; [tauto|]. intros (s1 & c & s2 & H & _).
    destruct s1; discriminate.
  - specialize (IH (c :: before)). simpl length in IH.
    assert (Hshift : (exists s1 c' s2, s = s1 ++ c' :: s2
              /\ i = S (length before) + length s1
              /\ Re.is_separator (rev s1 ++ c :: before) c' = true)
            <-> (exists s1 c' s2, c :: s = (c :: s1) ++ c' :: s2
              /\ i = length before + length (c :: s1)
              /\ Re.is_separator (rev (c :: s1) ++ before) c' = true)).
    { split; intros (s1 & c' & s2 & H1 & H2 & H3); exists s1, c', s2.
      - simpl. rewrite <- app_assoc. simpl. repeat split; [congruence|lia|exact H3].
      - simpl in *. rewrite <- app_assoc in H3. simpl in H3.
        repeat split; [congruence|lia|exact H3]. }
    simpl Re.split_go. destruct (Re.is_separator before c) eqn:Hsep.
    + destruct (Re.split_go (c :: before) s) as [|p ps] eqn:Hrest.
      { now apply split_go_not_nil in Hrest. }
      change (cut_offsets (length before) ([] :: p :: ps))
        with ((length before + 0) :: cut_offsets (length before + 0 + 1) (p :: ps)).
      replace (length before + 0 + 1) with (S (length before)) by lia.
      simpl In. rewrite IH, Hshift. split.
      * intros [Hi | (s1 & c' & s2 & H)].
        -- exists [], c, s. simpl. repeat split; [lia|exact Hsep].
        -- exists (c :: s1), c', s2. exact H.
      * intros (s1 & c' & s2 & H1 & H2 & H3). destruct s1 as [|a s1].
        -- left. simpl in H2. lia.
        -- right. simpl in H1. injection H1 as -> H1.
           exists s1, c', s2. simpl. rewrite H1. auto.
    + destruct (Re.split_go (c :: before) s) as [|p ps] eqn:Hrest.
      { now apply split_go_not_nil in Hrest. }
      rewrite cut_offsets_cons_char, IH, Hshift. split.
      * intros (s1 & c' & s2 & H). exists (c :: s1), c', s2. exact H.
      * intros (s1 & c' & s2 & H1 & H2 & H3). destruct s1 as [|a s1].
        -- simpl in H1, H3. injection H1 as -> _. congruence.
        -- simpl in H1. injection H1 as -> H1.
           exists s1, c', s2. simpl. rewrite H1. auto.
Qed.

Lemma split_go_weave (s before : str) :
  exists seps, weave (Re.split_go before s) seps = s
    /\ length (Re.split_go before s) = S (length seps)
    /\ Forall (fun c => Char.is_space c = true) seps.
Proof.
  revert before. induction s as [|c s IH]; intros before.
  - exists []. simpl. auto.
  - destruct (IH (c :: before)) as (seps & Hw & Hl & Hs).
    simpl Re.split_go. destruct (Re.is_separator before c) eqn:Hsep.
    + exists (c :: seps). simpl. rewrite Hw, Hl. repeat split.
      constructor; [|exact Hs].
      unfold Re.is_separator in Hsep. now apply andb_prop in Hsep as [_ ?].
    + destruct (Re.split_go (c :: before) s) as [|p ps] eqn:Hrest.
      { now apply split_go_not_nil in Hrest. }
      exists seps. simpl in *. repeat split; [|exact Hl|exact Hs].
      destruct seps; simpl; now rewrite <- Hw.
Qed.

(** C3, as the code has it: a whitespace character separates two
    sentences exactly when the text in front of it ends with a full stop
    or a question mark and ends neither with word character, full stop,
    word character, any character but a line feed ("U.S.", "e.g.") nor
    with an upper-case letter, a lower-case letter and a full stop
    ("Mr."); the pieces, put back around the whitespace characters that
    were dropped, are the padded text; and "U.S. stocks rose." is not cut
    after "U.S.": it gives the sentence and the empty piece that follows
    the last separator. *)
Theorem segment_breaks (text : str) :
  (forall pre c post,
     py " " ++ text ++ py " " = pre ++ c :: post ->
     In (length pre) (cut_offsets 0 (segment text)) <-> sentence_break pre c)
  /\ (exists seps,
        weave (segment text) seps = py " " ++ text ++ py " "
        /\ length (segment text) = S (length seps)
        /\ Forall (fun c => Char.is_space c = true) seps)
  /\ segment (py "U.S. stocks rose.") = [py " U.S. stocks rose."; py ""].
Proof.
  split; [|split].
  - intros pre c post Hpad. unfold segment, Re.split_sentences.
    rewrite (split_go_cuts _ [] (length pre)). rewrite <- is_separator_spec.
    split.
    + intros (s1 & c' & s2 & H1 & H2 & H3). simpl in H2.
      rewrite app_nil_r in H3. rewrite Hpad in H1.
      assert (Hpre : pre = s1).
      { apply (f_equal (firstn (length pre))) in H1.
        rewrite firstn_app, Nat.sub_diag, firstn_all in H1. simpl in H1.
        rewrite app_nil_r in H1. rewrite H1, H2.
        rewrite firstn_app, Nat.sub_diag, firstn_all. simpl.
        now rewrite app_nil_r. }
      subst s1. apply app_inv_head in H1. injection H1 as -> _. exact H3.
    + intros H. exists pre, c, post. simpl. rewrite app_nil_r. auto.
  - apply split_go_weave.
  - vm_compute. reflexivity.
Qed.

Lemma segment_breaks_witness :
  In 18 (cut_offsets 0 (segment (py "U.S. stocks rose.")))
  <-> sentence_break (py " U.S. stocks rose.") Char.space.
Proof.
  apply (proj1 (segment_breaks (py "U.S. stocks rose."))
           (py " U.S. stocks rose.") Char.space []).
  reflexivity.
Defined.

(** C3, as the spec has it, fails on the code: a single upper-case letter
    and a full stop do not hold back the cut ("Plan B. Next." is cut
    after "B."), and the segmentation of "U.S. stocks rose." has two
    pieces, not one. *)
Lemma segment_not_as_specified :
  segment (py "Plan B. Next.") = [py " Plan B."; py "Next."; py ""]
  /\ length (segment (py "U.S. stocks rose.")) = 2.
Proof. vm_compute. split; reflexivity. Qed.

(** ** The result store *)

Lemma filter_filter_negb {A} (p : A -> bool) (l : list A) :
  filter p (filter (fun x => negb (p x)) l) = [].
Proof.
  induction l as [|a l IH]; simpl; [reflexivity|].
  destruct (p a) eqn:Ha; simpl; [exact IH|]. now rewrite Ha.
Qed.

(** After [INSERT OR REPLACE] of a row, the rows with its key are that
    row alone. *)
Lemma rows_for_insert_same (r : ResultRow.t) (t : table) :
  rows_for (ResultRow.video_id r) (insert_or_replace r t) = [r].
Proof.
  unfold rows_for, insert_or_replace. rewrite filter_app.
  rewrite (filter_filter_negb (fun r' => str_eqb (ResultRow.video_id r') (ResultRow.video_id r))).
  simpl. now rewrite str_eqb_refl.
Qed.

(** ... and the rows with another key are as they were. *)
Lemma rows_for_insert_other (v : str) (r : ResultRow.t) (t : table) :
  v <> ResultRow.video_id r ->
  rows_for v (insert_or_replace r t) = rows_for v t.
Proof.
  intros Hv. unfold rows_for, insert_or_replace. rewrite filter_app. simpl.
  destruct (str_eqb (ResultRow.video_id r) v) eqn:E.
  { apply str_eqb_eq in E. congruence. }
  rewrite app_nil_r. induction t as [|a t IH]; simpl; [reflexivity|].
  destruct (str_eqb (ResultRow.video_id a) (ResultRow.video_id r)) eqn:Ea; simpl.
  - apply str_eqb_eq in Ea. rewrite Ea, E. exact IH.
  - now rewrite IH.
Qed.

(** The primary key stays a key: a table with one row per [video_id]
    has one row per [video_id] after [INSERT OR REPLACE]. *)
Lemma insert_or_replace_keeps_key (r : ResultRow.t) (t : table) :
  NoDup (map ResultRow.video_id t) ->
  NoDup (map ResultRow.video_id (insert_or_replace r t)).
Proof.
  intros Hnd. unfold insert_or_replace. rewrite map_app. simpl.
  set (keep := fun r' : ResultRow.t => negb (str_eqb (ResultRow.video_id r') (ResultRow.video_id r))).
  assert (Hsub : NoDup (map ResultRow.video_id (filter keep t))).
  { clear -Hnd. induction t as [|a t IH]; simpl; [constructor|].
    inversion Hnd as [|x l Hnotin Hrest]; subst.
    destruct (keep a); simpl; [|now apply IH].
    constructor; [|now apply IH].
    intros Hin. apply Hnotin. apply in_map_iff in Hin as (b & Hb & Hin).
    apply filter_In in Hin as [Hin _]. apply in_map_iff. now exists b. }
  apply NoDup_app; [exact Hsub|repeat constructor; intros []|].
  intros k Hin [<-|[]].
  apply in_map_iff in Hin as (b & Hb & Hin).
  apply filter_In in Hin as [_ Hkeep]. unfold keep in Hkeep.
  apply negb_true_iff in Hkeep. rewrite <- Hb, str_eqb_refl in Hkeep.
  discriminate.
Qed.

(** A save that cannot reach the storage, or whose date is malformed,
    leaves the table as it was: the error stays inside the call. *)
Lemma save_failure_keeps_table env ctx v d a t :
  storage ctx <> StorageOk \/ format_date ctx d = Raises ->
  value (save_analysis_to_db env ctx v d a t) = t.
Proof.
  intros H. unfold save_analysis_to_db.
  destruct (storage ctx) eqn:Hs.
  - destruct H as [H|H]; [congruence|]. rewrite value_bind, H. reflexivity.
  - reflexivity.
  - rewrite value_bind. destruct (format_date ctx d); reflexivity.
Qed.

Lemma save_value env ctx v d f a t :
  storage ctx = StorageOk ->
  format_date ctx d = Returns f ->
  value (save_analysis_to_db env ctx v d a t)
  = insert_or_replace (saved_row env ctx v f a) t.
Proof.
  intros Hs Hf. unfold save_analysis_to_db. rewrite Hs, value_bind, Hf.
  reflexivity.
Qed.

(** C6: a save is an upsert on [video_id].  Whatever the table holds, and
    whatever an earlier save for the same video did, a save that reaches
    the storage with a well-formed date leaves one row for the video, made
    of the fields of this save alone: the row it leaves when it is run
    without the earlier save.  The rows of the other videos are as the
    earlier save left them. *)
Theorem save_replaces_row
    (env1 env2 : Collaborators) (ctx1 ctx2 : SaveContext)
    (v d1 d2 f2 : str) (a1 a2 : AnalysisResult) (t : table) :
  storage ctx2 = StorageOk ->
  format_date ctx2 d2 = Returns f2 ->
  let after_first := value (save_analysis_to_db env1 ctx1 v d1 a1 t) in
  let after_both := value (save_analysis_to_db env2 ctx2 v d2 a2 after_first) in
  let second_alone := value (save_analysis_to_db env2 ctx2 v d2 a2 t) in
  rows_for v after_both = rows_for v second_alone
  /\ rows_for v after_both
     = [ {| ResultRow.video_id := v;
            ResultRow.tickers := tickers_str_of a2;
            ResultRow.sentiment := value (main_sentiment_label_of env2 (summary a2));
            ResultRow.summary := summary a2;
            ResultRow.analysis_date := today ctx2;
            ResultRow.publish_date := f2 |} ]
  /\ (forall v', v' <> v -> rows_for v' after_both = rows_for v' after_first).
Proof.
  intros Hs Hf after_first after_both second_alone.
  unfold after_both, second_alone. rewrite !(save_value env2 ctx2 v d2 _ _ Hs Hf).
  pose proof (rows_for_insert_same (saved_row env2 ctx2 v f2 a2)) as Hsame.
  simpl ResultRow.video_id in Hsame. rewrite !Hsame.
  split; [reflexivity|]. split; [reflexivity|].
  intros v' Hv'. now apply rows_for_insert_other.
Qed.

Lemma save_replaces_row_witness :
  rows_for (py "V1")
    (value (save_analysis_to_db (Fixtures.healthy []) StoreFixtures.working
              (py "V1") (py "20240601") StoreFixtures.second_analysis
              (value (save_analysis_to_db (Fixtures.healthy []) StoreFixtures.working
                        (py "V1") (py "20240530") StoreFixtures.first_analysis
                        [StoreFixtures.other_row]))))
  = [ {| ResultRow.video_id := py "V1";
         ResultRow.tickers := py "AAPL,TSLA";
         ResultRow.sentiment := py "POSITIVE";
         ResultRow.summary := py "Apple and Tesla moved.";
         ResultRow.analysis_date := py "2024-06-02";
         ResultRow.publish_date := py "2024-06-01" |} ].
Proof.
  refine (proj1 (proj2 (save_replaces_row
            (Fixtures.healthy []) (Fixtures.healthy [])
            StoreFixtures.working StoreFixtures.working
            (py "V1") (py "20240530") (py "20240601") (f2 := py "2024-06-01")
            StoreFixtures.first_analysis StoreFixtures.second_analysis
            [StoreFixtures.other_row] _ _))).
  - reflexivity.
  - reflexivity.
Defined.

(** C9, as the code has it: the row a save writes has, as [tickers], the
    [stock_name] values of the analysis joined with commas in their
    order, and, as [sentiment], the label of the sentiment pipeline on the
    summary put in upper case ("NEUTRAL" when the result has no label),
    or "NEUTRAL" when the summary is empty, when the pipeline raises or
    when it returns an empty list. *)
Theorem saved_tickers_and_sentiment
    (env : Collaborators) (ctx : SaveContext)
    (v d f : str) (a : AnalysisResult) (t : table) :
  storage ctx = StorageOk ->
  format_date ctx d = Returns f ->
  exists r,
    rows_for v (value (save_analysis_to_db env ctx v d a t)) = [r]
    /\ ResultRow.tickers r = join (py ",") (map stock_name (stocks a))
    /\ ResultRow.summary r = summary a
    /\ ResultRow.sentiment r
       = match summary a with
         | [] => py "NEUTRAL"
         | _ :: _ =>
             match sentiment_analyzer env (summary a) with
             | Returns ({| label := Some l |} :: _) => upper l
             | Returns ({| label := None |} :: _) => py "NEUTRAL"
             | Returns [] => py "NEUTRAL"
             | Raises => py "NEUTRAL"
             end
         end.
Proof.
  intros Hs Hf. exists (saved_row env ctx v f a).
  rewrite (save_value env ctx v d a t Hs Hf).
  pose proof (rows_for_insert_same (saved_row env ctx v f a) t) as Hsame.
  simpl ResultRow.video_id in Hsame. rewrite Hsame.
  split; [reflexivity|]. split; [reflexivity|]. split; [reflexivity|].
  simpl. unfold main_sentiment_label_of.
  destruct (summary a) as [|c s]; [reflexivity|].
  simpl truthy. cbv iota. rewrite value_bind.
  unfold run_sentiment_analyzer, value. simpl.
  destruct (sentiment_analyzer env (c :: s)) as [[|[[l|] sc] ds]|]; reflexivity.
Qed.

Lemma saved_tickers_and_sentiment_witness :
  exists r,
    rows_for (py "V1")
      (value (save_analysis_to_db (Fixtures.healthy []) StoreFixtures.working
                (py "V1") (py "20240601") StoreFixtures.second_analysis
                [StoreFixtures.other_row])) = [r]
    /\ ResultRow.tickers r = py "AAPL,TSLA"
    /\ ResultRow.sentiment r = py "POSITIVE".
Proof.
  destruct (saved_tickers_and_sentiment (Fixtures.healthy []) StoreFixtures.working
              (py "V1") (py "20240601") (f := py "2024-06-01")
              StoreFixtures.second_analysis [StoreFixtures.other_row]
              eq_refl eq_refl) as (r & Hr & Ht & _ & Hl).
  exists r. split; [exact Hr|]. split; [exact Ht|exact Hl].
Defined.

(** C9, as the spec has it, fails on the code: the pipeline labels the
    summary "Positive" and the row holds "POSITIVE". *)
Lemma saved_sentiment_is_not_the_label :
  sentiment_analyzer (Fixtures.healthy []) (summary StoreFixtures.second_analysis)
    = Returns [ {| label := Some (py "Positive");
                   score := Some 0x1.ccccccccccccdp-1%float |} ]
  /\ map ResultRow.sentiment
       (rows_for (py "V1")
          (value (save_analysis_to_db (Fixtures.healthy []) StoreFixtures.working
                    (py "V1") (py "20240601") StoreFixtures.second_analysis [])))
     = [py "POSITIVE"]
  /\ py "POSITIVE" <> py "Positive".
Proof.
  split; [reflexivity|]. split; [vm_compute; reflexivity|].
  vm_compute. discriminate.
Qed.

(** ** Floats: multiplying by [1.0] and by [-1.0] *)

Section FloatFacts.

Local Open Scope Z_scope.

Ltac z_names :=
  change IntDef.Z.add with Z.add in *;
  change IntDef.Z.sub with Z.sub in *;
  change IntDef.Z.max with Z.max in *.

(** The product of the mantissa [2^52] at exponent [-52] with a valid
    mantissa rounds to that mantissa: nothing is lost. *)
Lemma round_unit (sg : bool) (m : positive) (e : Z) :
  bounded prec emax m e = true ->
  binary_round_aux prec emax sg (Z.pos (4503599627370496 * m)) (-52 + e) loc_Exact
  = S754_finite sg m e.
Proof.
  intros Hb. unfold bounded in Hb. apply andb_prop in Hb as [Hc He].
  unfold canonical_mantissa in Hc. apply Z.eqb_eq in Hc.
  unfold binary_round_aux.
  assert (Hd : Zdigits2 (Z.pos (4503599627370496 * m))
               = Z.pos (digits2_pos m) + 52).
  { cbn [Pos.mul Zdigits2 digits2_pos]. rewrite !Pos2Z.inj_succ. lia. }
  unfold shr_fexp at 1. z_names. rewrite Hd.
  replace (Z.pos (digits2_pos m) + 52 + (-52 + e))
    with (Z.pos (digits2_pos m) + e) by lia.
  rewrite Hc. replace (e - (-52 + e)) with 52 by lia.
  cbn [shr shr_record_of_loc iter_pos Pos.mul shr_1 orb].
  cbn [shr_m loc_of_shr_record round_nearest_even shr_r shr_s].
  replace (-52 + e + 52) with e by lia.
  unfold shr_fexp. cbn [Zdigits2]. z_names. rewrite Hc, Z.sub_diag.
  cbn [shr shr_record_of_loc shr_m]. now rewrite He.
Qed.

Lemma mul_one_l (x : float) : (1 * x)%float = x.
Proof.
  apply Prim2SF_inj. rewrite mul_spec.
  pose proof (Prim2SF_valid x) as Hv.
  change (Prim2SF 1) with (S754_finite false 4503599627370496 (-52)).
  destruct (Prim2SF x) as [sg|sg| |sg m e]; try reflexivity.
  unfold SF64mul, SFmul. simpl xorb. now apply round_unit.
Qed.

Lemma mul_minus_one_l (x : float) : (-1 * x)%float = (- x)%float.
Proof.
  apply Prim2SF_inj. rewrite mul_spec, opp_spec.
  pose proof (Prim2SF_valid x) as Hv.
  change (Prim2SF (-1)) with (S754_finite true 4503599627370496 (-52)).
  destruct (Prim2SF x) as [sg|sg| |sg m e]; try reflexivity.
  unfold SF64mul, SFmul, SFopp. simpl xorb. now apply round_unit.
Qed.

End FloatFacts.

(** ** The numeric sentiment *)






(** * Properties of the code around the claims *)

(** ** [analyze_text]: the records and the calls *)

Lemma analyze_text_blank env text db_file :
  strip text = [] ->
  analyze_text env text db_file = (empty_analysis, []).
Proof.
  intros Hb. unfold analyze_text. rewrite Hb. simpl.
  now rewrite orb_true_r.
Qed.

Lemma analyze_text_unreadable env text db_file :
  strip text <> [] ->
  fetch_companies env db_file = Raises ->
  analyze_text env text db_file = (empty_analysis, [CallCompanies db_file]).
Proof.
  intros Hne Hf. unfold analyze_text.
  assert (Ht : truthy text = true).
  { apply truthy_true. intros ->. now apply Hne. }
  apply truthy_true in Hne. rewrite Ht, Hne. simpl.
  unfold bind, run_fetch_companies. simpl. now rewrite Hf.
Qed.

Lemma subsequence_nil_l {A} (l : list A) : subsequence [] l.
Proof. induction l; constructor; assumption. Qed.

Lemma subsequence_length {A} (l1 l2 : list A) :
  subsequence l1 l2 -> length l1 <= length l2.
Proof. induction 1; simpl; lia. Qed.

(** What a record of a company is made of. *)
Lemma process_company_some env sentences c m :
  value (process_company env sentences c) = Some m ->
  stock_name m = ticker c
  /\ explanation m <> []
  /\ explanation m
     = value (explain env (context_block_of (mentions_of sentences c)))
  /\ exists d ds,
       sentiment_analyzer env (explanation m) = Returns (d :: ds)
       /\ sentiment m = Float.round (_get_numerical_sentiment d) 4.
Proof.
  unfold process_company.
  destruct (negb (truthy (mentions_of sentences c))); [discriminate|].
  destruct (negb (truthy (context_block_of (mentions_of sentences c))));
    [discriminate|].
  rewrite value_bind.
  set (e := value (explain env (context_block_of (mentions_of sentences c)))).
  unfold score_explanation. destruct (truthy e) eqn:He; [|discriminate].
  rewrite value_bind. unfold run_sentiment_analyzer, value at 2. simpl fst.
  destruct (sentiment_analyzer env e) as [[|d ds]|] eqn:Hs; try discriminate.
  unfold ret, value. simpl. intros H. injection H as <-. simpl.
  split; [reflexivity|]. split; [now apply truthy_true|].
  split; [reflexivity|]. exists d, ds. now split.
Qed.

Lemma contribution_names env sentences cs :
  subsequence (map stock_name (flat_map (contribution env sentences) cs))
    (map ticker cs).
Proof.
  induction cs as [|c cs IH]; simpl; [constructor|].
  unfold contribution at 1.
  destruct (value (process_company env sentences c)) as [m|] eqn:Hm; simpl.
  - apply process_company_some in Hm as [-> _]. now constructor.
  - now constructor.
Qed.

(** X1: the stocks of an analysis follow the company table: their names
    are the tickers of the table with some left out, in the order of the
    table, so a row of the table gives one record at most; and there is
    no record at all when the table cannot be read. *)
Theorem stocks_follow_company_table
    (env : Collaborators) (text db_file : str) :
  match fetch_companies env db_file with
  | Returns cs =>
      subsequence
        (map stock_name (stocks (value (analyze_text env text db_file))))
        (map ticker cs)
      /\ length (stocks (value (analyze_text env text db_file))) <= length cs
  | Raises => stocks (value (analyze_text env text db_file)) = []
  end.
Proof.
  destruct (list_eq_dec ascii_dec (strip text) []) as [Hb|Hne].
  - rewrite (analyze_text_blank env text db_file Hb). simpl.
    destruct (fetch_companies env db_file); [|reflexivity].
    split; [apply subsequence_nil_l|lia].
  - destruct (fetch_companies env db_file) as [cs|] eqn:Hf.
    + rewrite (analyze_text_stocks env text db_file Hne Hf).
      pose proof (contribution_names env (segment text) cs) as Hsub.
      split; [exact Hsub|].
      apply subsequence_length in Hsub. now rewrite !length_map in Hsub.
    + now rewrite (analyze_text_unreadable env text db_file Hne Hf).
Qed.

(** Every record of an analysis is the contribution of a company of the
    table. *)
Lemma stocks_from_companies env text db_file m :
  In m (stocks (value (analyze_text env text db_file))) ->
  exists cs c,
    fetch_companies env db_file = Returns cs /\ In c cs
    /\ value (process_company env (segment text) c) = Some m.
Proof.
  intros Hin.
  destruct (list_eq_dec ascii_dec (strip text) []) as [Hb|Hne].
  { rewrite (analyze_text_blank env text db_file Hb) in Hin. destruct Hin. }
  destruct (fetch_companies env db_file) as [cs|] eqn:Hf.
  - rewrite (analyze_text_stocks env text db_file Hne Hf) in Hin.
    apply in_flat_map in Hin as (c & Hc & Hm). exists cs, c.
    split; [reflexivity|]. split; [exact Hc|].
    unfold contribution in Hm.
    destruct (value (process_company env (segment text) c)); [|destruct Hm].
    destruct Hm as [->|[]]. reflexivity.
  - rewrite (analyze_text_unreadable env text db_file Hne Hf) in Hin.
    destruct Hin.
Qed.

(** X2: every record of an analysis belongs to a company of the table
    and carries its ticker; its explanation is not empty and is what
    [explain] made of the context block of that company; and its
    sentiment is computed from the first answer of the sentiment pipeline
    on that explanation, on nothing else. *)
Theorem records_rest_on_their_explanation
    (env : Collaborators) (text db_file : str) (m : StockMention) :
  In m (stocks (value (analyze_text env text db_file))) ->
  explanation m <> []
  /\ (exists cs c,
        fetch_companies env db_file = Returns cs /\ In c cs
        /\ stock_name m = ticker c
        /\ explanation m
           = value (explain env
                      (context_block_of (mentions_of (segment text) c))))
  /\ (exists d ds,
        sentiment_analyzer env (explanation m) = Returns (d :: ds)
        /\ sentiment m = Float.round (_get_numerical_sentiment d) 4).
Proof.
  intros Hin. apply stocks_from_companies in Hin as (cs & c & Hf & Hc & Hm).
  apply process_company_some in Hm as (Hn & He & Hx & Hs).
  split; [exact He|]. split; [|exact Hs].
  exists cs, c. auto.
Qed.

Lemma records_rest_on_their_explanation_witness :
  explanation {| stock_name := py "AAPL";
                 sentiment := 0x1.ccccccccccccdp-1%float;
                 explanation := py "Apple rose." |} <> [].
Proof.
  refine (proj1 (records_rest_on_their_explanation
                   (Fixtures.healthy [Fixtures.apple; Fixtures.tesla])
                   Fixtures.short_text Fixtures.db _ _)).
  vm_compute. left. reflexivity.
Defined.

(** The calls made for one company: none, the sentiment call on a short
    context block, the summarizer call on a long one, or that call
    followed by the sentiment call on a text that is not empty. *)
Lemma process_company_trace env sentences c :
  let context_block := context_block_of (mentions_of sentences c) in
  trace (process_company env sentences c) = []
  \/ (context_block <> [] /\ length context_block < 100
      /\ trace (process_company env sentences c) = [CallSentiment context_block])
  \/ (100 <= length context_block
      /\ (trace (process_company env sentences c)
          = [CallSummarizer context_block 120 20]
          \/ exists e, e <> []
               /\ trace (process_company env sentences c)
                  = [CallSummarizer context_block 120 20; CallSentiment e])).
Proof.
  intros context_block. unfold process_company.
  destruct (negb (truthy (mentions_of sentences c))); [now left|].
  fold context_block.
  destruct (truthy context_block) eqn:Hc; simpl negb; cbv iota; [|now left].
  apply truthy_true in Hc. right.
  rewrite trace_bind. unfold explain.
  destruct (length context_block <? 100) eqn:Hlen.
  - left. apply Nat.ltb_lt in Hlen. split; [exact Hc|]. split; [exact Hlen|].
    unfold ret, value, trace at 1. simpl. unfold score_explanation.
    apply truthy_true in Hc. rewrite Hc. rewrite trace_bind. reflexivity.
  - right. apply Nat.ltb_ge in Hlen. split; [exact Hlen|].
    rewrite trace_bind, value_bind.
    unfold run_summarizer at 1 2. unfold trace at 1 2, value at 2. simpl.
    generalize (match summarizer env context_block 120 20 with
                | Returns [] => []
                | Returns (d :: _) =>
                    match summary_text d with
                    | Some t => t
                    | None => context_block
                    end
                | Raises => context_block
                end).
    intros e. unfold score_explanation. destruct (truthy e) eqn:He.
    + right. exists e. split; [now apply truthy_true|].
      rewrite trace_bind. reflexivity.
    + left. reflexivity.
Qed.

Lemma process_company_trace_length env sentences c :
  length (trace (process_company env sentences c)) <= 2.
Proof.
  destruct (process_company_trace env sentences c)
    as [-> | [(_ & _ & ->) | (_ & [-> | (e & _ & ->)])]]; simpl; lia.
Qed.

Lemma flat_map_length_le {A B} (f : A -> list B) (n : nat) (l : list A) :
  (forall a, length (f a) <= n) ->
  length (flat_map f l) <= n * length l.
Proof.
  intros Hf. induction l as [|a l IH]; simpl; [lia|].
  rewrite length_app. specialize (Hf a). lia.
Qed.

(** X3: the calls of one analysis.  The company table is read once at
    most, and first; with a table of [n] companies there are at most
    [2 + 2 * n] calls; the summarizer is called on the whole transcript
    with the output bounds 300 and 75, or on a context block of 100
    characters or more with the bounds 120 and 20, never on a shorter
    one; and the sentiment pipeline is never called on an empty text. *)
Theorem analyze_text_calls (env : Collaborators) (text db_file : str) :
  let calls := trace (analyze_text env text db_file) in
  (calls = []
   \/ exists rest, calls = CallCompanies db_file :: rest
        /\ forall d, ~ In (CallCompanies d) rest)
  /\ (forall cs, fetch_companies env db_file = Returns cs ->
        length calls <= 2 + 2 * length cs)
  /\ (forall t max_length min_length,
        In (CallSummarizer t max_length min_length) calls ->
        (t = text /\ max_length = 300 /\ min_length = 75)
        \/ (max_length = 120 /\ min_length = 20 /\ 100 <= length t))
  /\ (forall t, In (CallSentiment t) calls -> t <> []).
Proof.
  intros calls. unfold calls. clear calls.
  destruct (list_eq_dec ascii_dec (strip text) []) as [Hb|Hne].
  { rewrite (analyze_text_blank env text db_file Hb). simpl.
    split; [now left|]. split; [intros; lia|]. split; intros; contradiction. }
  destruct (fetch_companies env db_file) as [cs|] eqn:Hf.
  2:{ rewrite (analyze_text_unreadable env text db_file Hne Hf). simpl.
      split; [right; exists []; split; [reflexivity|intros d []]|].
      split; [discriminate|].
      split; [intros t a b [H|[]]; discriminate|intros t [H|[]]; discriminate]. }
  rewrite (analyze_text_trace env text db_file Hne Hf).
  set (per := fun c => trace (process_company env (segment text) c)).
  assert (Hper : forall ev, In ev (flat_map per cs) ->
            exists c, In ev (per c)).
  { intros ev Hin. apply in_flat_map in Hin as (c & _ & Hin). now exists c. }
  split; [|split; [|split]].
  - right. eexists. split; [reflexivity|].
    intros d [H|Hin]; [discriminate|].
    apply Hper in Hin as (c & Hin). unfold per in Hin.
    destruct (process_company_trace env (segment text) c)
      as [E | [(_ & _ & E) | (_ & [E | (e & _ & E)])]];
      rewrite E in Hin; simpl in Hin;
      repeat (destruct Hin as [Hin|Hin]; [discriminate|]); exact Hin.
  - intros cs' Hcs'. injection Hcs' as <-. simpl.
    pose proof (@flat_map_length_le _ _ per 2 cs
                  (process_company_trace_length env (segment text))). lia.
  - intros t a b [H|[H|Hin]]; [discriminate| |].
    + injection H as <- <- <-. now left.
    + right. apply Hper in Hin as (c & Hin). unfold per in Hin.
      destruct (process_company_trace env (segment text) c)
        as [E | [(_ & _ & E) | (Hlong & [E | (e & _ & E)])]];
        rewrite E in Hin; simpl in Hin;
        repeat (destruct Hin as [Hin|Hin];
                [try discriminate; injection Hin as <- <- <-; auto|]);
        contradiction.
  - intros t [H|[H|Hin]]; [discriminate|discriminate|].
    apply Hper in Hin as (c & Hin). unfold per in Hin.
    destruct (process_company_trace env (segment text) c)
      as [E | [(Hne' & _ & E) | (_ & [E | (e & He & E)])]];
      rewrite E in Hin; simpl in Hin;
      repeat (destruct Hin as [Hin|Hin];
              [try discriminate; injection Hin as <-; assumption|]);
      contradiction.
Qed.

Lemma analyze_text_calls_witness :
  length (trace (analyze_text (Fixtures.healthy [Fixtures.apple; Fixtures.tesla])
                   Fixtures.short_text Fixtures.db)) <= 2 + 2 * 2.
Proof.
  refine (proj1 (proj2 (analyze_text_calls
            (Fixtures.healthy [Fixtures.apple; Fixtures.tesla])
            Fixtures.short_text Fixtures.db))
            [Fixtures.apple; Fixtures.tesla] _).
  reflexivity.
Defined.

(** The loop body reads the summarizer on the bounds 120 and 20 only. *)
Lemma process_company_same env1 env2 sentences c :
  same_but_main_summary env1 env2 ->
  process_company env1 sentences c = process_company env2 sentences c.
Proof.
  intros (_ & Hsent & Hsum). unfold process_company.
  destruct (negb (truthy (mentions_of sentences c))); [reflexivity|].
  destruct (negb (truthy (context_block_of (mentions_of sentences c))));
    [reflexivity|].
  assert (He : forall b, explain env1 b = explain env2 b).
  { intros b. unfold explain, run_summarizer. now rewrite Hsum. }
  assert (Hs : forall t e, score_explanation env1 t e = score_explanation env2 t e).
  { intros t e. unfold score_explanation, run_sentiment_analyzer.
    now rewrite Hsent. }
  unfold bind. now rewrite He, Hs.
Qed.

(** X4: the records do not depend on what the summarizer does with the
    whole transcript.  Two runs whose summarizers differ on that call
    only (one may raise or return nothing there) give the same stocks;
    and when that call raises, returns an empty list or a result without
    text, the summary is the empty string. *)
Theorem stocks_ignore_main_summary
    (env1 env2 : Collaborators) (text db_file : str) :
  same_but_main_summary env1 env2 ->
  stocks (value (analyze_text env1 text db_file))
  = stocks (value (analyze_text env2 text db_file))
  /\ (summarizer env1 text 300 75 = Raises
      \/ summarizer env1 text 300 75 = Returns []
      \/ (exists ds, summarizer env1 text 300 75
                     = Returns ({| summary_text := None |} :: ds)) ->
      summary (value (analyze_text env1 text db_file)) = []).
Proof.
  intros Hsame. pose proof Hsame as (Hfetch & _ & _). split.
  - destruct (list_eq_dec ascii_dec (strip text) []) as [Hb|Hne].
    { now rewrite !(analyze_text_blank _ text db_file Hb). }
    destruct (fetch_companies env1 db_file) as [cs|] eqn:Hf.
    + rewrite (analyze_text_stocks env1 text db_file Hne Hf).
      rewrite Hfetch in Hf.
      rewrite (analyze_text_stocks env2 text db_file Hne Hf).
      clear Hf. induction cs as [|c cs IH]; simpl; [reflexivity|].
      f_equal; [|exact IH]. unfold contribution.
      now rewrite (process_company_same (segment text) c Hsame).
    + rewrite (analyze_text_unreadable env1 text db_file Hne Hf).
      rewrite Hfetch in Hf.
      now rewrite (analyze_text_unreadable env2 text db_file Hne Hf).
  - intros Hmain. unfold analyze_text.
    destruct (negb (truthy text) || negb (truthy (strip text)))%bool;
      [reflexivity|].
    rewrite value_bind. unfold run_fetch_companies at 1. unfold value at 2.
    simpl fst. destruct (fetch_companies env1 db_file); [|reflexivity].
    rewrite !value_bind. unfold ret, value at 1. simpl.
    unfold run_summarizer, value. simpl.
    destruct Hmain as [-> | [-> | (ds & ->)]]; reflexivity.
Qed.

Lemma stocks_ignore_main_summary_witness :
  stocks (value (analyze_text (MoreFixtures.main_summary_down [Fixtures.apple])
                   Fixtures.long_text Fixtures.db))
  = stocks (value (analyze_text (Fixtures.healthy [Fixtures.apple])
                     Fixtures.long_text Fixtures.db)).
Proof.
  refine (proj1 (@stocks_ignore_main_summary
                   (MoreFixtures.main_summary_down [Fixtures.apple])
                   (Fixtures.healthy [Fixtures.apple])
                   Fixtures.long_text Fixtures.db _)).
  repeat split.
Defined.

(** ** The two patterns of line 61, stated on the sentence *)

Lemma last_char_snoc (before : str) (c : ascii) :
  last_char (before ++ [c]) = Some c.
Proof. unfold last_char. now rewrite rev_app_distr. Qed.

Lemma match_lit_spec (lit before s : str) (p : option ascii) (r : str) :
  Re.match_lit lit (last_char before) s = Some (p, r)
  <-> exists mid, s = mid ++ r /\ same_ci lit mid
        /\ p = last_char (before ++ mid).
Proof.
  revert before s. induction lit as [|a lit IH]; intros before s; simpl.
  - split.
    + intros H. injection H as <- <-. exists []. simpl.
      rewrite app_nil_r. repeat split. constructor.
    + intros (mid & -> & Hci & ->). inversion Hci; subst. simpl.
      now rewrite app_nil_r.
  - destruct s as [|b s].
    + split; [discriminate|]. intros (mid & Hs & Hci & _).
      inversion Hci; subst. discriminate.
    + destruct (Char.eqb_ci a b) eqn:Hab.
      * rewrite <- (last_char_snoc before b), IH. split.
        -- intros (mid & -> & Hci & ->). exists (b :: mid).
           rewrite <- app_assoc. simpl. repeat split. now constructor.
        -- intros (mid & Hs & Hci & ->). inversion Hci as [|x y l l' Hxy Hl];
             subst. simpl in Hs. injection Hs as <- ->. exists l'.
           rewrite <- app_assoc. simpl. auto.
      * split; [discriminate|]. intros (mid & Hs & Hci & _).
        inversion Hci as [|x y l l' Hxy Hl]; subst. simpl in Hs.
        injection Hs as <- _. congruence.
Qed.

Lemma match_word_spec (lit before s : str) :
  Re.match_word lit (last_char before) s = true
  <-> exists mid post, s = mid ++ post /\ same_ci lit mid
        /\ word_edge before (mid ++ post) = true
        /\ word_edge (before ++ mid) post = true.
Proof.
  unfold Re.match_word. rewrite andb_true_iff.
  change (Re.at_boundary (last_char before) s) with (word_edge before s).
  split.
  - intros [Hb Hm].
    destruct (Re.match_lit lit (last_char before) s) as [[p r]|] eqn:E;
      [|discriminate].
    apply match_lit_spec in E as (mid & -> & Hci & ->).
    exists mid, r. auto.
  - intros (mid & post & -> & Hci & Hb1 & Hb2). split; [exact Hb1|].
    assert (E : Re.match_lit lit (last_char before) (mid ++ post)
                = Some (last_char (before ++ mid), post)).
    { apply match_lit_spec. exists mid. auto. }
    rewrite E. exact Hb2.
Qed.

Lemma search_from_unfold (lit : str) (prev : option ascii) (s : str) :
  Re.search_from lit prev s
  = (Re.match_word lit prev s
     || match s with
        | [] => false
        | c :: s' => Re.search_from lit (Some c) s'
        end)%bool.
Proof. destruct s; reflexivity. Qed.

Lemma search_from_spec (lit s before : str) :
  Re.search_from lit (last_char before) s = true
  <-> exists pre mid post, s = pre ++ mid ++ post /\ same_ci lit mid
        /\ word_edge (before ++ pre) (mid ++ post) = true
        /\ word_edge (before ++ pre ++ mid) post = true.
Proof.
  revert before. induction s as [|c s IH]; intros before;
    rewrite search_from_unfold, orb_true_iff, match_word_spec.
  - split.
    + intros [(mid & post & H)|H]; [|discriminate].
      exists [], mid, post. simpl. now rewrite app_nil_r.
    + intros (pre & mid & post & Hs & Hci & Hb1 & Hb2). left.
      destruct pre; [|discriminate]. simpl in *.
      rewrite app_nil_r in Hb1. exists mid, post. auto.
  - rewrite <- (last_char_snoc before c), IH. split.
    + intros [(mid & post & H)|(pre & mid & post & -> & Hci & Hb1 & Hb2)].
      * exists [], mid, post. simpl. now rewrite app_nil_r.
      * exists (c :: pre), mid, post. rewrite <- !app_assoc in *. simpl in *.
        auto.
    + intros (pre & mid & post & Hs & Hci & Hb1 & Hb2).
      destruct pre as [|c' pre].
      * left. simpl in *. rewrite app_nil_r in Hb1. exists mid, post. auto.
      * right. simpl in Hs. injection Hs as <- ->. exists pre, mid, post.
        rewrite <- !app_assoc. simpl. auto.
Qed.

Lemma search_word_spec (lit s : str) :
  Re.search_word lit s = true <-> occurs_as_word lit s.
Proof.
  unfold Re.search_word, occurs_as_word.
  change (@None ascii) with (last_char []). apply search_from_spec.
Qed.

(** X5: what the two patterns of line 61 find.  A sentence holds the
    ticker pattern exactly when the ticker stands in it up to case, with
    a word boundary on each side; the same for the name pattern and the
    clean name; and the mentions of a company are the sentences, trimmed
    and in their order, in which one of the two stands as a whole
    word. *)
Theorem mentions_are_whole_word_matches
    (sentences : list str) (c : Company) (s : str) :
  (ticker_matches c s = true <-> occurs_as_word (ticker c) s)
  /\ (name_matches c s = true <-> occurs_as_word (clean_name c) s)
  /\ (forall m, In m (mentions_of sentences c) <->
        exists s', In s' sentences /\ m = strip s'
          /\ (occurs_as_word (ticker c) s'
              \/ occurs_as_word (clean_name c) s')).
Proof.
  split; [apply search_word_spec|]. split; [apply search_word_spec|].
  intros m. unfold mentions_of. rewrite in_map_iff. split.
  - intros (s' & <- & Hin). apply filter_In in Hin as [Hin Hm].
    apply orb_true_iff in Hm. exists s'. split; [exact Hin|].
    split; [reflexivity|].
    destruct Hm as [Hm|Hm]; apply search_word_spec in Hm; auto.
  - intros (s' & Hin & -> & Hm). exists s'. split; [reflexivity|].
    apply filter_In. split; [exact Hin|]. apply orb_true_iff.
    unfold ticker_matches, name_matches.
    destruct Hm as [Hm|Hm]; apply search_word_spec in Hm; auto.
Qed.

Lemma mentions_are_whole_word_matches_witness :
  occurs_as_word (py "AAPL") (py " Buy aapl now.").
Proof.
  apply (proj1 (proj1 (mentions_are_whole_word_matches []
                         Fixtures.apple (py " Buy aapl now.")))).
  reflexivity.
Defined.

(** ** Case *)



Lemma is_space_upper (c : ascii) : Char.is_space (Char.upper c) = Char.is_space c.
Proof. destruct c as [[] [] [] [] [] [] [] []]; reflexivity. Qed.

Lemma is_lower_upper (c : ascii) : Char.is_lower (Char.upper c) = false.
Proof. destruct c as [[] [] [] [] [] [] [] []]; reflexivity. Qed.












Lemma lstrip_upper (s : str) : lstrip (upper s) = upper (lstrip s).
Proof.
  induction s as [|c s IH]; simpl; [reflexivity|].
  rewrite is_space_upper. destruct (Char.is_space c); [exact IH|reflexivity].
Qed.

Lemma rev_upper (s : str) : rev (upper s) = upper (rev s).
Proof. unfold upper. symmetry. apply map_rev. Qed.

Lemma strip_upper (s : str) : strip (upper s) = upper (strip s).
Proof.
  unfold strip, rstrip.
  now rewrite lstrip_upper, rev_upper, lstrip_upper, rev_upper.
Qed.



(** ** [save_analysis_to_db]: every outcome *)

(** What a save does to the table: nothing, or the upsert of its row. *)
Lemma save_cases env ctx v d a t :
  value (save_analysis_to_db env ctx v d a t) = t
  \/ exists f, storage ctx = StorageOk /\ format_date ctx d = Returns f
       /\ value (save_analysis_to_db env ctx v d a t)
          = insert_or_replace (saved_row env ctx v f a) t.
Proof.
  destruct (storage ctx) eqn:Hs.
  - destruct (format_date ctx d) as [f|] eqn:Hf.
    + right. exists f. split; [reflexivity|]. split; [reflexivity|].
      now apply save_value.
    + left. apply save_failure_keeps_table. now right.
  - left. apply save_failure_keeps_table. left. congruence.
  - left. apply save_failure_keeps_table. left. congruence.
Qed.

Lemma filter_idempotent {A} (p : A -> bool) (l : list A) :
  filter p (filter p l) = filter p l.
Proof.
  induction l as [|a l IH]; simpl; [reflexivity|].
  destruct (p a) eqn:Ha; simpl; [now rewrite Ha, IH|exact IH].
Qed.

Lemma filter_comm {A} (p q : A -> bool) (l : list A) :
  filter p (filter q l) = filter q (filter p l).
Proof.
  induction l as [|a l IH]; simpl; [reflexivity|].
  destruct (p a) eqn:Hp, (q a) eqn:Hq; simpl; rewrite ?Hp, ?Hq, IH; reflexivity.
Qed.



(** X8: a save keeps [video_id] a key.  On a table with one row per
    video at most, every save, successful or not, leaves a table with one
    row per video at most. *)
Theorem save_keeps_video_id_unique
    (env : Collaborators) (ctx : SaveContext)
    (v d : str) (a : AnalysisResult) (t : table) :
  NoDup (map ResultRow.video_id t) ->
  NoDup (map ResultRow.video_id (value (save_analysis_to_db env ctx v d a t))).
Proof.
  intros Hnd. destruct (save_cases env ctx v d a t) as [E | (f & _ & _ & E)];
    rewrite E; [exact Hnd|now apply insert_or_replace_keeps_key].
Qed.

Lemma save_keeps_video_id_unique_witness :
  NoDup (map ResultRow.video_id
           (value (save_analysis_to_db (Fixtures.healthy []) StoreFixtures.working
                     (py "V1") (py "20240601") StoreFixtures.second_analysis
                     [StoreFixtures.other_row]))).
Proof.
  apply (save_keeps_video_id_unique (Fixtures.healthy []) StoreFixtures.working
           (py "V1") (py "20240601") StoreFixtures.second_analysis
           [StoreFixtures.other_row]).
  repeat constructor. intros [].
Defined.

(** X9: a save touches the rows of its own video only.  Whatever its
    outcome, the rows of every other video are the same rows in the same
    order, and the table grows by one row at most. *)
Theorem save_leaves_other_videos
    (env : Collaborators) (ctx : SaveContext)
    (v d : str) (a : AnalysisResult) (t : table) :
  let others := fun r : ResultRow.t => negb (str_eqb (ResultRow.video_id r) v) in
  filter others (value (save_analysis_to_db env ctx v d a t)) = filter others t
  /\ (forall v', v' <> v ->
        rows_for v' (value (save_analysis_to_db env ctx v d a t))
        = rows_for v' t)
  /\ length (value (save_analysis_to_db env ctx v d a t)) <= S (length t).
Proof.
  intros others.
  destruct (save_cases env ctx v d a t) as [E | (f & _ & _ & E)]; rewrite E.
  - split; [reflexivity|]. split; [reflexivity|]. lia.
  - split; [|split].
    + unfold insert_or_replace. rewrite filter_app. simpl ResultRow.video_id.
      fold others. rewrite filter_idempotent. simpl. unfold others at 2.
      simpl. rewrite str_eqb_refl. simpl. now rewrite app_nil_r.
    + intros v' Hv'. now apply rows_for_insert_other.
    + unfold insert_or_replace. rewrite length_app. simpl length.
      rewrite Nat.add_1_r. apply le_n_S. apply filter_length_le.
Qed.

Lemma save_leaves_other_videos_witness :
  rows_for (py "V0")
    (value (save_analysis_to_db (Fixtures.healthy []) StoreFixtures.working
              (py "V1") (py "20240601") StoreFixtures.second_analysis
              [StoreFixtures.other_row]))
  = rows_for (py "V0") [StoreFixtures.other_row].
Proof.
  apply (proj1 (proj2 (save_leaves_other_videos (Fixtures.healthy [])
           StoreFixtures.working (py "V1") (py "20240601")
           StoreFixtures.second_analysis [StoreFixtures.other_row]))).
  vm_compute. discriminate.
Defined.

Lemma insert_or_replace_swap (r1 r2 : ResultRow.t) (t : table) :
  ResultRow.video_id r1 <> ResultRow.video_id r2 ->
  Permutation (insert_or_replace r2 (insert_or_replace r1 t))
    (insert_or_replace r1 (insert_or_replace r2 t)).
Proof.
  intros Hne. unfold insert_or_replace. rewrite !filter_app. simpl.
  destruct (str_eqb (ResultRow.video_id r1) (ResultRow.video_id r2)) eqn:E12.
  { apply str_eqb_eq in E12. contradiction. }
  destruct (str_eqb (ResultRow.video_id r2) (ResultRow.video_id r1)) eqn:E21.
  { apply str_eqb_eq in E21. now symmetry in E21. }
  simpl. rewrite <- !app_assoc. simpl.
  rewrite (filter_comm
             (fun r' => negb (str_eqb (ResultRow.video_id r') (ResultRow.video_id r2)))
             (fun r' => negb (str_eqb (ResultRow.video_id r') (ResultRow.video_id r1)))).
  apply Permutation_app_head. apply perm_swap.
Qed.

(** X10: saves for different videos commute.  Two saves for two
    different videos, run in either order, whatever the outcome of each,
    leave the same rows: the two tables are permutations of one another,
    and hold the same rows for every video. *)
Theorem saves_for_different_videos_commute
    (env1 env2 : Collaborators) (ctx1 ctx2 : SaveContext)
    (v1 v2 d1 d2 : str) (a1 a2 : AnalysisResult) (t : table) :
  v1 <> v2 ->
  let first_then_second :=
    value (save_analysis_to_db env2 ctx2 v2 d2 a2
             (value (save_analysis_to_db env1 ctx1 v1 d1 a1 t))) in
  let second_then_first :=
    value (save_analysis_to_db env1 ctx1 v1 d1 a1
             (value (save_analysis_to_db env2 ctx2 v2 d2 a2 t))) in
  Permutation first_then_second second_then_first
  /\ forall v, rows_for v first_then_second = rows_for v second_then_first.
Proof.
  intros Hne first_then_second second_then_first.
  unfold first_then_second, second_then_first.
  destruct (storage ctx1) eqn:Hs1, (format_date ctx1 d1) as [f1|] eqn:Hf1;
    try (rewrite !(save_failure_keeps_table env1 ctx1 v1 d1 a1);
         [split; [apply Permutation_refl|reflexivity]
         |first [left; congruence|now right]..]).
  destruct (storage ctx2) eqn:Hs2, (format_date ctx2 d2) as [f2|] eqn:Hf2;
    try (rewrite !(save_failure_keeps_table env2 ctx2 v2 d2 a2);
         [split; [apply Permutation_refl|reflexivity]
         |first [left; congruence|now right]..]).
  rewrite !(save_value env1 ctx1 v1 d1 a1 _ Hs1 Hf1).
  rewrite !(save_value env2 ctx2 v2 d2 a2 _ Hs2 Hf2).
  split.
  - now apply insert_or_replace_swap.
  - set (r1 := saved_row env1 ctx1 v1 f1 a1).
    set (r2 := saved_row env2 ctx2 v2 f2 a2).
    assert (H1 : forall t', rows_for v1 (insert_or_replace r1 t') = [r1])
      by (intros t'; apply (rows_for_insert_same r1)).
    assert (H2 : forall t', rows_for v2 (insert_or_replace r2 t') = [r2])
      by (intros t'; apply (rows_for_insert_same r2)).
    assert (O1 : forall v t', v <> v1 ->
              rows_for v (insert_or_replace r1 t') = rows_for v t')
      by (intros v t' Hv; now apply rows_for_insert_other).
    assert (O2 : forall v t', v <> v2 ->
              rows_for v (insert_or_replace r2 t') = rows_for v t')
      by (intros v t' Hv; now apply rows_for_insert_other).
    intros v. destruct (list_eq_dec ascii_dec v v1) as [->|Hv1].
    + now rewrite (O2 v1) by exact Hne; rewrite !H1.
    + rewrite (O1 v _ Hv1). destruct (list_eq_dec ascii_dec v v2) as [->|Hv2].
      * now rewrite !H2.
      * now rewrite !(O2 v _ Hv2), (O1 v _ Hv1).
Qed.

Lemma saves_for_different_videos_commute_witness :
  rows_for (py "V1")
    (value (save_analysis_to_db (Fixtures.healthy []) StoreFixtures.working
              (py "V2") (py "20240601") StoreFixtures.second_analysis
              (value (save_analysis_to_db (Fixtures.healthy [])
                        StoreFixtures.working (py "V1") (py "20240530")
                        StoreFixtures.first_analysis []))))
  = rows_for (py "V1")
      (value (save_analysis_to_db (Fixtures.healthy []) StoreFixtures.working
                (py "V1") (py "20240530") StoreFixtures.first_analysis
                (value (save_analysis_to_db (Fixtures.healthy [])
                          StoreFixtures.working (py "V2") (py "20240601")
                          StoreFixtures.second_analysis [])))).
Proof.
  apply (proj2 (saves_for_different_videos_commute
                  (Fixtures.healthy []) (Fixtures.healthy [])
                  StoreFixtures.working StoreFixtures.working
                  (v1 := py "V1") (v2 := py "V2") (py "20240530") (py "20240601")
                  StoreFixtures.first_analysis StoreFixtures.second_analysis []
                  ltac:(vm_compute; discriminate)) (py "V1")).
Defined.

Lemma upper_has_no_lower (s : str) :
  Forall (fun c => Char.is_lower c = false) (upper s).
Proof.
  induction s as [|c s IH]; simpl; constructor;
    [apply is_lower_upper|exact IH].
Qed.

(** X11: the sentiment a save stores is never in lower or mixed case;
    and when the label of the pipeline, if any, is one of "Positive",
    "Negative" and "Neutral", the stored text is one of "POSITIVE",
    "NEGATIVE" and "NEUTRAL", whatever else happens (empty summary, the
    pipeline raising or returning nothing). *)
Theorem stored_sentiment_is_upper_case
    (env : Collaborators) (ctx : SaveContext)
    (v d f : str) (a : AnalysisResult) (t : table) (r : ResultRow.t) :
  storage ctx = StorageOk ->
  format_date ctx d = Returns f ->
  In r (rows_for v (value (save_analysis_to_db env ctx v d a t))) ->
  Forall (fun c => Char.is_lower c = false) (ResultRow.sentiment r)
  /\ ((forall x xs l,
         sentiment_analyzer env (summary a) = Returns (x :: xs) ->
         label x = Some l ->
         In l [py "Positive"; py "Negative"; py "Neutral"]) ->
      In (ResultRow.sentiment r) [py "POSITIVE"; py "NEGATIVE"; py "NEUTRAL"]).
Proof.
  intros Hs Hf Hin. rewrite (save_value env ctx v d a t Hs Hf) in Hin.
  pose proof (rows_for_insert_same (saved_row env ctx v f a) t) as Hsame.
  simpl ResultRow.video_id in Hsame. rewrite Hsame in Hin.
  destruct Hin as [<-|[]]. simpl ResultRow.sentiment.
  unfold main_sentiment_label_of.
  destruct (summary a) as [|c s] eqn:Hsum.
  { simpl. split; [repeat constructor|]. intros _. right. right. now left. }
  simpl truthy. cbv iota. rewrite value_bind.
  unfold run_sentiment_analyzer, value. simpl fst.
  destruct (sentiment_analyzer env (c :: s)) as [[|[[l|] sc] xs]|] eqn:Hsa;
    simpl.
  - split; [repeat constructor|]. intros _. right. right. now left.
  - split; [apply upper_has_no_lower|]. intros Hl.
    specialize (Hl _ _ l eq_refl eq_refl).
    destruct Hl as [<-|[<-|[<-|[]]]]; vm_compute; auto.
  - split; [exact (upper_has_no_lower (py "Neutral"))|].
    intros _. right. right. now left.
  - split; [repeat constructor|]. intros _. right. right. now left.
Qed.

Lemma stored_sentiment_is_upper_case_witness :
  Forall (fun c => Char.is_lower c = false) (py "POSITIVE").
Proof.
  refine (proj1 (stored_sentiment_is_upper_case (Fixtures.healthy [])
            StoreFixtures.working (py "V1") (py "20240601") (f := py "2024-06-01")
            StoreFixtures.second_analysis []
            {| ResultRow.video_id := py "V1";
               ResultRow.tickers := py "AAPL,TSLA";
               ResultRow.sentiment := py "POSITIVE";
               ResultRow.summary := py "Apple and Tesla moved.";
               ResultRow.analysis_date := py "2024-06-02";
               ResultRow.publish_date := py "2024-06-01" |} _ _ _)).
  - reflexivity.
  - reflexivity.
  - vm_compute. left. reflexivity.
Defined.

(** ** [str.strip] *)

Lemma lstrip_suffix (s : str) :
  exists a, s = a ++ lstrip s /\ forallb Char.is_space a = true.
Proof.
  induction s as [|c s (a & Ha & Hsp)]; simpl.
  - exists []. auto.
  - destruct (Char.is_space c) eqn:Hc.
    + exists (c :: a). simpl. rewrite Hc, Hsp. split; [now f_equal|reflexivity].
    + exists []. auto.
Qed.

Lemma lstrip_head (s : str) (c : ascii) (r : str) :
  lstrip s = c :: r -> Char.is_space c = false.
Proof.
  induction s as [|x s IH]; simpl; [discriminate|].
  destruct (Char.is_space x) eqn:Hx; [exact IH|].
  intros H. injection H as <- _. exact Hx.
Qed.

Lemma forallb_rev {A} (p : A -> bool) (l : list A) :
  forallb p (rev l) = forallb p l.
Proof.
  induction l as [|a l IH]; simpl; [reflexivity|].
  rewrite forallb_app, IH. simpl. rewrite andb_true_r. apply andb_comm.
Qed.

Lemma rstrip_prefix (s : str) :
  exists b, s = rstrip s ++ b /\ forallb Char.is_space b = true.
Proof.
  unfold rstrip. destruct (lstrip_suffix (rev s)) as (a & Ha & Hsp).
  exists (rev a). split.
  - rewrite <- rev_app_distr, <- Ha. now rewrite rev_involutive.
  - now rewrite forallb_rev.
Qed.

(** The trimmed text is the text without a run of whitespace at each
    end. *)
Lemma strip_infix (s : str) :
  exists a b, s = a ++ strip s ++ b
    /\ forallb Char.is_space a = true /\ forallb Char.is_space b = true.
Proof.
  destruct (lstrip_suffix s) as (a & Ha & Hsa).
  destruct (rstrip_prefix (lstrip s)) as (b & Hb & Hsb).
  exists a, b. unfold strip. rewrite <- Hb. auto.
Qed.

(** A trimmed text does not start with whitespace. *)
Lemma strip_head (s : str) (c : ascii) (r : str) :
  strip s = c :: r -> Char.is_space c = false.
Proof.
  intros H. destruct (rstrip_prefix (lstrip s)) as (b & Hb & _).
  fold (strip s) in Hb. rewrite H in Hb. simpl in Hb.
  now apply lstrip_head in Hb.
Qed.

(** A trimmed text made of whitespace is empty. *)
Lemma strip_blank_is_empty (s : str) :
  forallb Char.is_space (strip s) = true -> strip s = [].
Proof.
  destruct (strip s) as [|c r] eqn:E; [reflexivity|].
  simpl. rewrite (strip_head s E). discriminate.
Qed.

Lemma strip_Forall (P : ascii -> Prop) (s : str) :
  Forall P s -> Forall P (strip s).
Proof.
  intros H. destruct (strip_infix s) as (a & b & Hs & _).
  rewrite Hs in H. apply Forall_app in H as [_ H].
  now apply Forall_app in H as [H _].
Qed.

(** ** The library functions of [_clean_transcript_text] *)

Lemma splitlines_no_break (s : str) :
  Forall (Forall (fun c => Vtt.is_linebreak c = false)) (Vtt.splitlines s).
Proof.
  assert (H : forall n s, length s <= n ->
            Forall (Forall (fun c => Vtt.is_linebreak c = false))
              (Vtt.splitlines s)).
  { clear s. induction n as [|n IH]; intros s Hn.
    - destruct s; [constructor|simpl in Hn; lia].
    - destruct s as [|c s]; [constructor|]. simpl in Hn. simpl.
      destruct (Vtt.is_linebreak c) eqn:Hc.
      + destruct s as [|d s]; [repeat constructor|].
        destruct (Vtt.is_cr c && Vtt.is_lf d)%bool.
        * constructor; [constructor|]. apply IH. simpl in Hn. lia.
        * constructor; [constructor|]. apply IH. lia.
      + assert (Hrec := IH s ltac:(lia)).
        destruct (Vtt.splitlines s) as [|l ls]; [repeat constructor; exact Hc|].
        inversion Hrec; subst. constructor; [|assumption].
        constructor; assumption. }
  apply (H (length s)). lia.
Qed.

Lemma drop_while_suffix (p : ascii -> bool) (s : str) :
  exists a, s = a ++ Vtt.drop_while p s.
Proof.
  induction s as [|c s (a & Ha)]; simpl; [now exists []|].
  destruct (p c); [exists (c :: a); simpl; now f_equal|now exists []].
Qed.

Lemma drop_prefix_suffix (prefix s r : str) :
  Vtt.drop_prefix prefix s = Some r -> s = prefix ++ r.
Proof.
  revert s. induction prefix as [|a prefix IH]; intros s; simpl.
  - intros H. now injection H as ->.
  - destruct s as [|b s]; [discriminate|].
    destruct (Ascii.eqb a b) eqn:E; [|discriminate].
    apply Ascii.eqb_eq in E. subst b. intros H. f_equal. now apply IH.
Qed.

(** What the cue pattern leaves is the end of the line. *)
Lemma sub_cue_prefix_suffix (line : str) :
  exists a, line = a ++ Vtt.sub_cue_prefix line.
Proof.
  unfold Vtt.sub_cue_prefix.
  destruct (Vtt.match_cue_prefix line) as [rest|] eqn:E; [|now exists []].
  unfold Vtt.match_cue_prefix in E.
  destruct line as [|c line']; [discriminate|].
  destruct (Vtt.in_cue_class c); [|discriminate].
  destruct (drop_while_suffix Vtt.in_cue_class (c :: line')) as (a1 & H1).
  destruct (Vtt.drop_prefix (py "align:start position:")
              (Vtt.drop_while Vtt.in_cue_class (c :: line'))) as [r1|] eqn:E1;
    [|discriminate].
  apply drop_prefix_suffix in E1.
  destruct r1 as [|d r1']; [discriminate|].
  destruct (Char.is_digit d); [|discriminate].
  destruct (drop_while_suffix Char.is_digit (d :: r1')) as (a2 & H2).
  destruct (Vtt.drop_while Char.is_digit (d :: r1')) as [|p r2] eqn:E2;
    [discriminate|].
  destruct (N.eqb (Char.code p) 37); [|discriminate].
  injection E as <-.
  destruct (drop_while_suffix Char.is_space r2) as (a3 & H3).
  exists (a1 ++ py "align:start position:" ++ a2 ++ p :: a3).
  assert (Hline : c :: line'
                  = a1 ++ (py "align:start position:"
                           ++ (a2 ++ p :: (a3 ++ Vtt.drop_while Char.is_space r2)))).
  { rewrite <- H3, <- H2, <- E1. exact H1. }
  rewrite Hline at 1. rewrite <- !app_assoc. simpl.
  now rewrite <- ?app_assoc.
Qed.

Lemma unique_incl (parts : list str) (p : str) :
  In p (Vtt.unique parts) <-> In p parts.
Proof.
  induction parts as [|q parts IH]; simpl; [tauto|].
  rewrite filter_In, IH. split.
  - intros [H|[H _]]; auto.
  - intros [H|H]; [now left|].
    destruct (list_eq_dec ascii_dec q p) as [E|E]; [now left|].
    right. split; [exact H|].
    destruct (str_eqb q p) eqn:Eq; [|reflexivity].
    apply str_eqb_eq in Eq. contradiction.
Qed.

Lemma unique_NoDup (parts : list str) : NoDup (Vtt.unique parts).
Proof.
  induction parts as [|q parts IH]; simpl; constructor.
  - intros Hin. apply filter_In in Hin as [_ Hq].
    now rewrite str_eqb_refl in Hq.
  - now apply NoDup_filter.
Qed.




Lemma join_Forall (P : ascii -> Prop) (sep : str) (parts : list str) :
  Forall P sep -> Forall (Forall P) parts -> Forall P (join sep parts).
Proof.
  intros Hsep. induction parts as [|p parts IH]; intros H; [constructor|].
  inversion H as [|x l Hp Hps]; subst.
  destruct parts as [|q parts]; [exact Hp|].
  change (join sep (p :: q :: parts)) with (p ++ sep ++ join sep (q :: parts)).
  apply Forall_app. split; [exact Hp|].
  apply Forall_app. split; [exact Hsep|now apply IH].
Qed.

(** Every part of the cleaned text is the trimmed end of a kept line of
    the raw text. *)
Lemma text_parts_origin (raw_text p : str) :
  In p (text_parts_of raw_text) ->
  exists line, In line (Vtt.splitlines (strip raw_text))
    /\ keeps_line line = true
    /\ p = strip (Vtt.sub_cue_prefix line).
Proof.
  unfold text_parts_of. rewrite in_map_iff.
  intros (line & <- & Hin). apply filter_In in Hin as [Hin Hk].
  exists line. auto.
Qed.

(** ** [_clean_transcript_text] *)

Lemma unique_parts_origin (raw_text p : str) :
  In p (unique_parts_of raw_text) ->
  exists line a b c,
    In line (Vtt.splitlines (strip raw_text))
    /\ keeps_line line = true
    /\ line = a ++ b ++ p ++ c.
Proof.
  intros Hin. apply (proj1 (unique_incl _ _)) in Hin.
  apply text_parts_origin in Hin as (line & Hin & Hk & ->).
  destruct (sub_cue_prefix_suffix line) as (a & Ha).
  destruct (strip_infix (Vtt.sub_cue_prefix line)) as (b & c & Hb & _).
  exists line, a, b, c. split; [exact Hin|]. split; [exact Hk|].
  rewrite Ha at 1. now rewrite Hb at 1.
Qed.

(** X12: the cleaned transcript is one line: it holds none of the
    characters that end a line, whatever the raw text. *)
Theorem clean_transcript_is_one_line (raw_text : str) :
  Forall (fun c => Vtt.is_linebreak c = false) (_clean_transcript_text raw_text).
Proof.
  unfold _clean_transcript_text.
  destruct (negb (truthy raw_text)); [constructor|].
  apply join_Forall; [repeat constructor|].
  apply Forall_forall. intros p Hp.
  apply unique_parts_origin in Hp as (line & a & b & c & Hin & _ & Hline).
  pose proof (splitlines_no_break (strip raw_text)) as Hall.
  rewrite Forall_forall in Hall. specialize (Hall line Hin).
  rewrite Hline in Hall.
  apply Forall_app in Hall as [_ Hall]. apply Forall_app in Hall as [_ Hall].
  now apply Forall_app in Hall as [Hall _].
Qed.

Lemma starts_with_app (n x y : str) :
  Vtt.starts_with n x = true -> Vtt.starts_with n (x ++ y) = true.
Proof.
  revert x. induction n as [|a n IH]; intros x; simpl; [reflexivity|].
  destruct x as [|b x]; [discriminate|]. simpl.
  rewrite !andb_true_iff. intros [Hab Hn]. split; [exact Hab|now apply IH].
Qed.

Lemma contains_unfold (n s : str) :
  Vtt.contains n s
  = (Vtt.starts_with n s
     || match s with [] => false | _ :: s' => Vtt.contains n s' end)%bool.
Proof. destruct s; reflexivity. Qed.

Lemma contains_app_r (n x y : str) :
  Vtt.contains n x = true -> Vtt.contains n (x ++ y) = true.
Proof.
  induction x as [|c x IH]; rewrite (contains_unfold n (_ ++ _)),
    (contains_unfold n), !orb_true_iff.
  - intros [H|H]; [|discriminate]. left. now apply (starts_with_app n [] y).
  - intros [H|H]; [left; now apply (starts_with_app n (c :: x) y)|].
    right. simpl. now apply IH.
Qed.

Lemma contains_app_l (n x y : str) :
  Vtt.contains n y = true -> Vtt.contains n (x ++ y) = true.
Proof.
  intros H. induction x as [|c x IH]; [exact H|].
  rewrite contains_unfold. simpl. rewrite IH. apply orb_true_r.
Qed.

Lemma starts_with_before_sep (sp : ascii) (n x y : str) :
  ~ In sp n ->
  Vtt.starts_with n (x ++ sp :: y) = true -> Vtt.starts_with n x = true.
Proof.
  revert x. induction n as [|a n IH]; intros x Hsp; simpl; [reflexivity|].
  destruct x as [|b x]; simpl.
  - rewrite andb_true_iff. intros [Hab _]. apply Ascii.eqb_eq in Hab.
    subst. exfalso. apply Hsp. now left.
  - rewrite !andb_true_iff. intros [Hab Hn]. split; [exact Hab|].
    apply IH; [|exact Hn]. intros Hin. apply Hsp. now right.
Qed.

Lemma contains_around_sep (sp : ascii) (n x y : str) :
  ~ In sp n -> n <> [] ->
  Vtt.contains n (x ++ sp :: y) = true ->
  Vtt.contains n x = true \/ Vtt.contains n y = true.
Proof.
  intros Hsp Hn. induction x as [|c x IH].
  - simpl app. rewrite contains_unfold, orb_true_iff. intros [H|H]; [|now right].
    destruct n as [|a n]; [contradiction|]. simpl in H.
    apply andb_prop in H as [H _]. apply Ascii.eqb_eq in H. subst.
    exfalso. apply Hsp. now left.
  - rewrite contains_unfold, orb_true_iff. intros [H|H].
    + left. rewrite contains_unfold.
      now rewrite (starts_with_before_sep sp n (c :: x) y Hsp H).
    + simpl in H. destruct (IH H) as [Hx|Hy]; [left|now right].
      rewrite contains_unfold, Hx. apply orb_true_r.
Qed.

Lemma contains_join (sp : ascii) (n : str) (parts : list str) :
  ~ In sp n -> n <> [] ->
  Vtt.contains n (join [sp] parts) = true ->
  exists p, In p parts /\ Vtt.contains n p = true.
Proof.
  intros Hsp Hn. induction parts as [|p parts IH].
  - simpl. destruct n; [contradiction|discriminate].
  - destruct parts as [|q parts].
    + intros H. exists p. split; [now left|exact H].
    + change (join [sp] (p :: q :: parts))
        with (p ++ sp :: join [sp] (q :: parts)).
      intros H. apply contains_around_sep in H as [H|H]; try assumption.
      * exists p. split; [now left|exact H].
      * destruct (IH H) as (p' & Hin & Hp'). exists p'.
        split; [now right|exact Hp'].
Qed.

(** X13: the header never leaks: the cleaned transcript does not hold
    the text "WEBVTT", whatever the raw text. *)
Theorem clean_transcript_has_no_header (raw_text : str) :
  Vtt.contains (py "WEBVTT") (_clean_transcript_text raw_text) = false.
Proof.
  destruct (Vtt.contains (py "WEBVTT") (_clean_transcript_text raw_text))
    eqn:E; [|reflexivity].
  exfalso. unfold _clean_transcript_text in E.
  destruct (negb (truthy raw_text)); [discriminate|].
  apply (contains_join Char.space) in E as (p & Hp & Hc).
  - apply unique_parts_origin in Hp as (line & a & b & c & _ & Hk & Hline).
    unfold keeps_line in Hk. apply negb_true_iff in Hk.
    apply orb_false_iff in Hk as [Hk _]. apply orb_false_iff in Hk as [_ Hk].
    rewrite Hline in Hk.
    assert (Ht : Vtt.contains (py "WEBVTT") (a ++ b ++ p ++ c) = true).
    { apply contains_app_l, contains_app_l, contains_app_r. exact Hc. }
    congruence.
  - vm_compute. intuition discriminate.
  - discriminate.
Qed.



Lemma join_forallb (p : ascii -> bool) (sep : str) (parts : list str) :
  forallb p (join sep parts) = true ->
  forall x, In x parts -> forallb p x = true.
Proof.
  induction parts as [|q parts IH]; intros H x Hin; [destruct Hin|].
  destruct parts as [|q' parts].
  - destruct Hin as [<-|[]]. exact H.
  - change (join sep (q :: q' :: parts))
      with (q ++ sep ++ join sep (q' :: parts)) in H.
    rewrite !forallb_app, !andb_true_iff in H. destruct H as (Hq & _ & Hrest).
    destruct Hin as [<-|Hin]; [exact Hq|now apply IH].
Qed.

Lemma join_of_empty_parts (sep : str) (parts : list str) :
  NoDup parts -> (forall x, In x parts -> x = []) -> join sep parts = [].
Proof.
  intros Hnd Hall. destruct parts as [|p [|q parts]].
  - reflexivity.
  - simpl. apply Hall. now left.
  - exfalso. inversion Hnd as [|x l Hnotin _]; subst. apply Hnotin.
    rewrite (Hall p) by now left. rewrite <- (Hall q) by (right; now left).
    now left.
Qed.

(** A cleaned transcript made of whitespace is the empty string. *)
Lemma clean_blank_then_empty (raw_text : str) :
  forallb Char.is_space (_clean_transcript_text raw_text) = true ->
  _clean_transcript_text raw_text = [].
Proof.
  unfold _clean_transcript_text.
  destruct (negb (truthy raw_text)); [reflexivity|]. intros Hb.
  apply join_of_empty_parts; [apply unique_NoDup|].
  intros x Hx. pose proof (join_forallb _ _ _ Hb x Hx) as Hxb.
  apply (proj1 (unique_incl _ _)) in Hx.
  apply text_parts_origin in Hx as (line & _ & _ & ->).
  now apply strip_blank_is_empty.
Qed.

(** X15: the cleaned transcript is blank only when it is empty.  A raw
    text made of whitespace gives the empty string, and a cleaned
    transcript made of whitespace is the empty string: the cleaning never
    hands on a text that is whitespace and nothing else. *)
Theorem clean_transcript_blank_is_empty (raw_text : str) :
  (forallb Char.is_space raw_text = true ->
   _clean_transcript_text raw_text = [])
  /\ (forallb Char.is_space (_clean_transcript_text raw_text) = true ->
      _clean_transcript_text raw_text = []).
Proof.
  split; [|apply clean_blank_then_empty].
  intros Hb. unfold _clean_transcript_text.
  destruct (negb (truthy raw_text)); [reflexivity|].
  unfold unique_parts_of, text_parts_of. now rewrite (strip_blank _ Hb).
Qed.

Lemma clean_transcript_blank_is_empty_witness :
  _clean_transcript_text (py "  ") = [].
Proof.
  apply (proj1 (clean_transcript_blank_is_empty (py "  "))). reflexivity.
Defined.

(** A cue line that holds its timing and nothing else gives an empty
    part, hence the two spaces in a row. *)
Example clean_vtt :
  unique_parts_of MoreFixtures.vtt
  = [py "Kind: captions"; py ""; py "Apple rose."; py "Tesla fell."]
  /\ _clean_transcript_text MoreFixtures.vtt
     = py "Kind: captions  Apple rose. Tesla fell.".
Proof. vm_compute. split; reflexivity. Qed.

(** ** [get_video_list] *)

Lemma split_on_not_nil (sep : ascii) (s : str) : Vtt.split_on sep s <> [].
Proof.
  destruct s as [|c s]; simpl; [discriminate|].
  destruct (Ascii.eqb c sep); [discriminate|].
  destruct (Vtt.split_on sep s); discriminate.
Qed.

Lemma traverse_length {A B} (f : A -> outcome B) (l : list A) (r : list B) :
  traverse f l = Returns r -> length r = length l.
Proof.
  revert r. induction l as [|a l IH]; intros r; simpl.
  - intros H. now injection H as <-.
  - destruct (f a); [|discriminate].
    destruct (traverse f l) as [bs|]; [|discriminate].
    intros H. injection H as <-. simpl. f_equal. now apply IH.
Qed.

(** X16: [get_video_list] never returns an empty list.  When it returns,
    the list has as many entries as the trimmed output of [yt-dlp] has
    lines, one at least; and when [yt-dlp] prints nothing, [json.loads]
    is given the empty string, which it rejects, and the function raises
    instead of returning no video. *)
Theorem get_video_list_is_never_empty
    (Json : Type) (json_loads : str -> outcome Json)
    (yt_dlp_list : str -> Z -> outcome str) (channel_url : str) (limit : Z) :
  (forall videos,
     get_video_list json_loads yt_dlp_list channel_url limit = Returns videos ->
     videos <> []
     /\ exists stdout,
          yt_dlp_list channel_url limit = Returns stdout
          /\ length videos
             = length (Vtt.split_on Char.newline (strip stdout)))
  /\ (json_loads [] = Raises ->
      forall stdout,
        yt_dlp_list channel_url limit = Returns stdout ->
        forallb Char.is_space stdout = true ->
        get_video_list json_loads yt_dlp_list channel_url limit = Raises).
Proof.
  unfold get_video_list. split.
  - intros videos H.
    destruct (yt_dlp_list channel_url limit) as [stdout|]; [|discriminate].
    apply traverse_length in H. split.
    + intros ->. simpl in H. symmetry in H. apply length_zero_iff_nil in H.
      now apply split_on_not_nil in H.
    + exists stdout. auto.
  - intros Hjson stdout -> Hblank. rewrite (strip_blank _ Hblank).
    simpl. now rewrite Hjson.
Qed.

Lemma get_video_list_is_never_empty_witness :
  get_video_list ListFixtures.loads ListFixtures.no_video (py "channel") 30
  = Raises.
Proof.
  apply (proj2 (get_video_list_is_never_empty ListFixtures.loads
                  ListFixtures.no_video (py "channel") 30)
           eq_refl (py "") eq_refl eq_refl).
Defined.

Example get_video_list_two :
  get_video_list ListFixtures.loads ListFixtures.two_videos (py "channel") 30
  = Returns [py "{1}"; py "{2}"].
Proof. vm_compute. reflexivity. Qed.

(** ** [get_captions_only] and [process_single_video] *)

(** When a transcript is returned, it is the cleaned text of the caption
    file, and [yt-dlp] had not failed. *)
Lemma get_captions_only_some (run : CaptionRun) (text : str) :
  transcript (get_captions_only run) = Some text <->
  exists raw_text,
    yt_dlp_captions run = Returns tt
    /\ caption_file run = Some (Returns raw_text)
    /\ text = _clean_transcript_text raw_text.
Proof.
  unfold get_captions_only. split.
  - destruct (yt_dlp_captions run) as [[]|]; [|discriminate].
    destruct (caption_file run) as [[raw|]|]; try discriminate.
    simpl. intros H. injection H as <-. exists raw. auto.
  - intros (raw & -> & -> & ->). reflexivity.
Qed.

(** A transcript that is returned and is not empty is not blank. *)
Lemma transcript_not_blank (run : CaptionRun) (text : str) :
  transcript (get_captions_only run) = Some text ->
  text <> [] -> strip text <> [].
Proof.
  intros Ht Hne Hblank. apply get_captions_only_some in Ht as (raw & _ & _ & ->).
  apply Hne. apply clean_blank_then_empty.
  destruct (strip_infix (_clean_transcript_text raw)) as (a & b & Hs & Ha & Hb).
  rewrite Hs, Hblank. simpl. rewrite forallb_app. now rewrite Ha, Hb.
Qed.

(** What [process_single_video] does: nothing, or the analysis of the
    transcript followed by the save. *)
Lemma process_single_video_cases env ctx captions video t :
  process_single_video env ctx captions video t = (t, [])
  \/ exists v d text,
       Video.id video = Some v /\ v <> []
       /\ Video.upload_date video = Some d /\ d <> []
       /\ transcript (get_captions_only (captions v)) = Some text
       /\ text <> []
       /\ process_single_video env ctx captions video t
          = (analysis <- analyze_text env text DB_FILE ;;
             save_analysis_to_db env ctx v d analysis t).
Proof.
  unfold process_single_video.
  destruct (Video.id video) as [v|]; [|now left].
  destruct (Video.upload_date video) as [d|]; [|now left].
  destruct (truthy v) eqn:Hv; [|now left].
  destruct (truthy d) eqn:Hd; [|now left]. simpl.
  destruct (transcript (get_captions_only (captions v))) as [text|] eqn:Ht;
    [|now left].
  destruct (truthy text) eqn:Htext; [|now left]. simpl.
  right. exists v, d, text. apply truthy_true in Hv, Hd, Htext. auto 10.
Qed.

(** X17: a video that cannot be analysed is skipped without a trace.
    With no id or no upload date (absent or empty), when [yt-dlp] fails,
    when it leaves no caption file or one that cannot be read, or when
    the caption file holds whitespace only, [process_single_video] calls
    no collaborator and leaves the table as it was. *)
Theorem video_without_transcript_is_skipped
    (env : Collaborators) (ctx : SaveContext) (captions : str -> CaptionRun)
    (video : Video.t) (t : table) :
  (Video.id video = None \/ Video.id video = Some []
   \/ Video.upload_date video = None \/ Video.upload_date video = Some []
   \/ exists v, Video.id video = Some v
        /\ (yt_dlp_captions (captions v) = Raises
            \/ caption_file (captions v) = None
            \/ caption_file (captions v) = Some Raises
            \/ exists raw_text,
                 caption_file (captions v) = Some (Returns raw_text)
                 /\ forallb Char.is_space raw_text = true)) ->
  process_single_video env ctx captions video t = (t, []).
Proof.
  intros H. unfold process_single_video.
  destruct H as [H | [H | [H | [H | (v & Hv & H)]]]].
  - now rewrite H.
  - rewrite H. now destruct (Video.upload_date video).
  - rewrite H. now destruct (Video.id video).
  - rewrite H. destruct (Video.id video); [|reflexivity]. simpl.
    now rewrite orb_true_r.
  - rewrite Hv. destruct (Video.upload_date video) as [d|]; [|reflexivity].
    destruct (negb (truthy v) || negb (truthy d))%bool; [reflexivity|].
    unfold get_captions_only.
    destruct (yt_dlp_captions (captions v)) as [[]|] eqn:Hrun;
      [|reflexivity].
    destruct H as [H | [-> | [-> | (raw & -> & Hblank)]]];
      [discriminate|reflexivity|reflexivity|].
    simpl. unfold _clean_transcript_text.
    destruct (negb (truthy raw)); [reflexivity|].
    unfold unique_parts_of, text_parts_of. now rewrite (strip_blank _ Hblank).
Qed.

Lemma video_without_transcript_is_skipped_witness :
  process_single_video (Fixtures.healthy [Fixtures.apple]) StoreFixtures.working
    MoreFixtures.captions_missing MoreFixtures.video_1 [StoreFixtures.other_row]
  = ([StoreFixtures.other_row], []).
Proof.
  apply (video_without_transcript_is_skipped (Fixtures.healthy [Fixtures.apple])
           StoreFixtures.working MoreFixtures.captions_missing
           MoreFixtures.video_1 [StoreFixtures.other_row]).
  right. right. right. right. exists (py "V1").
  split; [reflexivity|]. right. left. reflexivity.
Defined.

(** X18: one video, one row.  Whatever happens, [process_single_video]
    leaves the rows of every other video as they were, keeps [video_id] a
    key of the table, and adds one row at most. *)
Theorem process_single_video_keeps_to_its_row
    (env : Collaborators) (ctx : SaveContext) (captions : str -> CaptionRun)
    (video : Video.t) (t : table) :
  let after := value (process_single_video env ctx captions video t) in
  (forall v', Video.id video <> Some v' -> rows_for v' after = rows_for v' t)
  /\ (NoDup (map ResultRow.video_id t) -> NoDup (map ResultRow.video_id after))
  /\ length after <= S (length t).
Proof.
  intros after. unfold after. clear after.
  destruct (process_single_video_cases env ctx captions video t)
    as [E | (v & d & text & Hv & _ & _ & _ & _ & _ & E)]; rewrite E.
  { simpl. split; [reflexivity|]. split; [auto|lia]. }
  rewrite value_bind.
  set (analysis := value (analyze_text env text DB_FILE)).
  destruct (save_cases env ctx v d analysis t) as [Es | (f & _ & _ & Es)];
    rewrite Es.
  { split; [reflexivity|]. split; [auto|lia]. }
  split; [|split].
  - intros v' Hv'. apply rows_for_insert_other. simpl. congruence.
  - apply insert_or_replace_keeps_key.
  - unfold insert_or_replace. rewrite length_app. simpl length.
    rewrite Nat.add_1_r. apply le_n_S. apply filter_length_le.
Qed.

Lemma process_single_video_keeps_to_its_row_witness :
  rows_for (py "V0")
    (value (process_single_video (Fixtures.healthy [Fixtures.apple])
              StoreFixtures.working MoreFixtures.captions_ok
              MoreFixtures.video_1 [StoreFixtures.other_row]))
  = rows_for (py "V0") [StoreFixtures.other_row].
Proof.
  apply (proj1 (process_single_video_keeps_to_its_row
                  (Fixtures.healthy [Fixtures.apple]) StoreFixtures.working
                  MoreFixtures.captions_ok MoreFixtures.video_1
                  [StoreFixtures.other_row])).
  discriminate.
Defined.

(** X19: in the pipeline the analysis never meets a blank transcript.
    Either [process_single_video] calls nothing at all, or a transcript
    that is not blank came out of the caption file, the company table of
    [finance_data.db] is read first and the transcript is summarized
    next: the guard of [analyze_text] against blank transcripts is never
    what ends the analysis of a video. *)
Theorem pipeline_transcript_is_not_blank
    (env : Collaborators) (ctx : SaveContext) (captions : str -> CaptionRun)
    (video : Video.t) (t : table) :
  trace (process_single_video env ctx captions video t) = []
  \/ exists v text rest,
       Video.id video = Some v
       /\ transcript (get_captions_only (captions v)) = Some text
       /\ strip text <> []
       /\ trace (process_single_video env ctx captions video t)
          = CallCompanies DB_FILE :: rest
       /\ (forall cs, fetch_companies env DB_FILE = Returns cs ->
             exists rest', rest = CallSummarizer text 300 75 :: rest').
Proof.
  destruct (process_single_video_cases env ctx captions video t)
    as [E | (v & d & text & Hv & _ & _ & _ & Ht & Hne & E)];
    [left; now rewrite E|].
  right. pose proof (transcript_not_blank _ Ht Hne) as Hnb.
  rewrite E, trace_bind.
  destruct (fetch_companies env DB_FILE) as [cs|] eqn:Hf.
  - rewrite (analyze_text_trace env text DB_FILE Hnb Hf).
    eexists v, text, _. split; [exact Hv|]. split; [exact Ht|].
    split; [exact Hnb|]. split; [reflexivity|].
    intros cs' _. eexists. reflexivity.
  - rewrite (analyze_text_unreadable env text DB_FILE Hnb Hf).
    eexists v, text, _. split; [exact Hv|]. split; [exact Ht|].
    split; [exact Hnb|]. split; [reflexivity|]. discriminate.
Qed.

Example process_video_1 :
  process_single_video (Fixtures.healthy [Fixtures.apple; Fixtures.tesla])
    StoreFixtures.working MoreFixtures.captions_ok MoreFixtures.video_1 []
  = ([ {| ResultRow.video_id := py "V1";
          ResultRow.tickers := py "AAPL,TSLA";
          ResultRow.sentiment := py "POSITIVE";
          ResultRow.summary := py "A summary.";
          ResultRow.analysis_date := py "2024-06-02";
          ResultRow.publish_date := py "2024-06-01" |} ],
     [ CallCompanies DB_FILE;
       CallSummarizer (py "Kind: captions  Apple rose. Tesla fell.") 300 75;
       CallSentiment (py "Kind: captions  Apple rose.");
       CallSentiment (py "Tesla fell.");
       CallSentiment (py "A summary.") ]).
Proof. vm_compute. reflexivity. Qed.

(** ** The names [setup_database] stores *)

Lemma upper_of_space (c : ascii) : Char.is_space c = true -> Char.upper c = c.
Proof.
  destruct c as [[] [] [] [] [] [] [] []]; intros H;
    solve [reflexivity | cbv in H; discriminate H].
Qed.

Lemma upper_upper_char (c : ascii) : Char.upper (Char.upper c) = Char.upper c.
Proof. destruct c as [[] [] [] [] [] [] [] []]; reflexivity. Qed.

Lemma upper_upper (s : str) : upper (upper s) = upper s.
Proof.
  unfold upper. rewrite map_map. apply map_ext. apply upper_upper_char.
Qed.

Lemma collapse_is_single_spaced (b : bool) (s : str) :
  single_spaced b (collapse_go b s) = true.
Proof.
  revert b. induction s as [|c s IH]; intros b; simpl; [reflexivity|].
  destruct (Char.is_space c) eqn:Hc.
  - destruct b; [apply IH|]. simpl. apply IH.
  - simpl. rewrite Hc. apply IH.
Qed.

Lemma collapse_of_single_spaced (b : bool) (s : str) :
  single_spaced b s = true -> collapse_go b s = s.
Proof.
  revert b. induction s as [|c s IH]; intros b; simpl; [reflexivity|].
  destruct (Char.is_space c) eqn:Hc.
  - intros H. apply andb_prop in H as [H Hs]. apply andb_prop in H as [Hsp Hb].
    apply Ascii.eqb_eq in Hsp. apply negb_true_iff in Hb. subst b c.
    f_equal. now apply IH.
  - intros H. f_equal. now apply IH.
Qed.

Lemma single_spaced_weaken (b : bool) (s : str) :
  single_spaced b s = true -> single_spaced false s = true.
Proof.
  destruct s as [|c s]; simpl; [reflexivity|].
  destruct (Char.is_space c); [|auto].
  intros H. apply andb_prop in H as [H Hs]. apply andb_prop in H as [Hsp _].
  now rewrite Hsp, Hs.
Qed.

Lemma single_spaced_app (b : bool) (x y : str) :
  single_spaced b (x ++ y) = true ->
  single_spaced b x = true /\ single_spaced false y = true.
Proof.
  revert b. induction x as [|c x IH]; intros b; simpl.
  - intros H. split; [reflexivity|]. now apply single_spaced_weaken in H.
  - destruct (Char.is_space c).
    + intros H. apply andb_prop in H as [H Hs]. rewrite H.
      destruct (IH true Hs) as [Hx Hy]. now rewrite Hx.
    + apply IH.
Qed.

Lemma single_spaced_strip (s : str) :
  single_spaced false s = true -> single_spaced false (strip s) = true.
Proof.
  intros H. destruct (strip_infix s) as (a & b & Hs & _).
  rewrite Hs in H. apply single_spaced_app in H as [_ H].
  now apply single_spaced_app in H as [H _].
Qed.

Lemma single_spaced_upper (b : bool) (s : str) :
  single_spaced b (upper s) = single_spaced b s.
Proof.
  revert b. induction s as [|c s IH]; intros b; simpl; [reflexivity|].
  rewrite is_space_upper. destruct (Char.is_space c) eqn:Hc; [|apply IH].
  rewrite (upper_of_space c Hc). f_equal. apply IH.
Qed.

Lemma lstrip_lstrip (s : str) : lstrip (lstrip s) = lstrip s.
Proof.
  destruct (lstrip s) as [|c r] eqn:E; [reflexivity|].
  simpl. now rewrite (lstrip_head s E).
Qed.

Lemma strip_strip (s : str) : strip (strip s) = strip s.
Proof.
  assert (Hl : lstrip (strip s) = strip s).
  { destruct (strip s) as [|c r] eqn:E; [reflexivity|].
    simpl. now rewrite (strip_head s E). }
  unfold strip at 1. rewrite Hl. unfold rstrip, strip at 1, rstrip.
  rewrite rev_involutive, lstrip_lstrip. reflexivity.
Qed.

(** X20: the names [setup_database] stores are in a normal form.  The
    stored name of a title has no lower-case letter, no whitespace at
    either end, and no whitespace but single spaces; and storing a stored
    name again changes nothing. *)
Theorem stored_names_are_normal (title : str) (data : list (str * str)) :
  let stored := normalize_title title in
  normalize_title stored = stored
  /\ Forall (fun c => Char.is_lower c = false) stored
  /\ strip stored = stored
  /\ single_spaced false stored = true
  /\ map ticker (companies_to_insert data) = map fst data
  /\ Forall (fun c => normalize_title (name c) = name c)
       (companies_to_insert data).
Proof.
  assert (Hsp : forall t, single_spaced false (normalize_title t) = true).
  { intros t. unfold normalize_title. rewrite single_spaced_upper.
    apply single_spaced_strip. apply collapse_is_single_spaced. }
  assert (Hst : forall t, strip (normalize_title t) = normalize_title t).
  { intros t. unfold normalize_title. now rewrite strip_upper, strip_strip. }
  assert (Hid : forall t, normalize_title (normalize_title t) = normalize_title t).
  { intros t. unfold normalize_title at 1. unfold collapse_whitespace.
    rewrite (collapse_of_single_spaced false _ (Hsp t)), Hst.
    unfold normalize_title. apply upper_upper. }
  intros stored. unfold stored.
  split; [apply Hid|]. split; [apply upper_has_no_lower|].
  split; [apply Hst|]. split; [apply Hsp|]. split.
  - unfold companies_to_insert. rewrite map_map. reflexivity.
  - unfold companies_to_insert. apply Forall_map, Forall_forall.
    intros v _. apply Hid.
Qed.

Example normalize_title_apple :
  normalize_title (py "  Apple   Inc. ") = py "APPLE INC."
  /\ clean_name {| ticker := py "AAPL"; name := py "APPLE INC." |} = py "APPLE .".
Proof. vm_compute. split; reflexivity. Qed.

(** ** Names that end in punctuation *)

Lemma is_word_lower (c : ascii) : Char.is_word (Char.lower c) = Char.is_word c.
Proof. destruct c as [[] [] [] [] [] [] [] []]; reflexivity. Qed.

Lemma eqb_ci_is_word (a b : ascii) :
  Char.eqb_ci a b = true -> Char.is_word a = Char.is_word b.
Proof.
  unfold Char.eqb_ci. intros H. apply Ascii.eqb_eq in H.
  now rewrite <- (is_word_lower a), H, is_word_lower.
Qed.

Lemma last_char_app (a b : str) :
  b <> [] -> last_char (a ++ b) = last_char b.
Proof.
  unfold last_char. rewrite rev_app_distr.
  destruct (rev b) as [|c r] eqn:E; [|reflexivity].
  intros Hb. exfalso. apply Hb. rewrite <- (rev_involutive b), E. reflexivity.
Qed.

Lemma same_ci_last (lit mid : str) (x : ascii) :
  same_ci lit mid -> last_char lit = Some x ->
  exists y, last_char mid = Some y /\ Char.is_word y = Char.is_word x.
Proof.
  intros H. induction H as [|a b lit mid Hab H IH]; [discriminate|].
  destruct lit as [|a' lit].
  - inversion H; subst. unfold last_char. simpl. intros E. injection E as <-.
    exists b. split; [reflexivity|]. symmetry. now apply eqb_ci_is_word.
  - intros E.
    change (a :: a' :: lit) with ([a] ++ a' :: lit) in E.
    rewrite (@last_char_app [a] (a' :: lit)) in E by discriminate.
    destruct (IH E) as (y & Hy & Hw). exists y. split; [|exact Hw].
    inversion H as [|u v l l' Huv Hl]; subst.
    change (b :: v :: l') with ([b] ++ v :: l').
    now rewrite (@last_char_app [b] (v :: l')) by discriminate.
Qed.

(** X21: a clean name that ends in a character that is not a word
    character (the full stop of "APPLE INC." is left when "INC" is
    taken out) is found in a sentence only where a word character comes
    right after it: such a name is not found when a space or the end of
    the sentence follows. *)
Theorem name_ending_in_punctuation
    (c : Company) (s : str) (x : ascii) :
  last_char (clean_name c) = Some x ->
  Char.is_word x = false ->
  name_matches c s = true ->
  exists pre mid w post,
    s = pre ++ mid ++ w :: post
    /\ same_ci (clean_name c) mid
    /\ Char.is_word w = true.
Proof.
  intros Hlast Hx Hm. unfold name_matches in Hm.
  apply search_word_spec in Hm as (pre & mid & post & -> & Hci & _ & Hedge).
  destruct (same_ci_last Hci Hlast) as (y & Hy & Hw).
  assert (Hmid : mid <> []).
  { intros ->. discriminate. }
  unfold word_edge in Hedge.
  rewrite (@last_char_app pre mid Hmid), Hy in Hedge. simpl in Hedge.
  rewrite Hw, Hx in Hedge. simpl in Hedge.
  destruct post as [|w post]; [discriminate|].
  exists pre, mid, w, post. auto.
Qed.

Lemma name_ending_in_punctuation_witness :
  exists pre mid w post,
    py " apple .x" = pre ++ mid ++ w :: post
    /\ same_ci (clean_name {| ticker := py "AAPL"; name := py "APPLE INC." |}) mid
    /\ Char.is_word w = true.
Proof.
  apply (name_ending_in_punctuation
           {| ticker := py "AAPL"; name := py "APPLE INC." |}
           (py " apple .x") (x := "."%char)); reflexivity.
Defined.

Example apple_inc_is_not_found_by_name :
  name_matches {| ticker := py "AAPL"; name := py "APPLE INC." |}
    (py " Apple Inc. rose today.") = false
  /\ name_matches {| ticker := py "AAPL"; name := py "APPLE INC" |}
       (py " Apple rose today.") = true.
Proof. vm_compute. split; reflexivity. Qed.

(** ** The range of the sentiment of a record *)

Section Bounds.
Local Open Scope Z_scope.

(** Every quotient [k / 10000] with [k <= 10000], of either sign, is a
    float within [-1, 1]: checked one by one. *)
Lemma quotients_checked :
  forallb (fun n => within_unit (quotient false (Pos.of_nat n))
                    && within_unit (quotient true (Pos.of_nat n)))%bool
    (seq 1 (100 * 100)) = true.
Proof. vm_compute. reflexivity. Qed.

Lemma quotient_within_unit (sign : bool) (k : positive) :
  Z.pos k <= 10000 -> within_unit (quotient sign k) = true.
Proof.
  intros Hk. pose proof quotients_checked as H.
  rewrite forallb_forall in H. specialize (H (Pos.to_nat k)).
  rewrite Pos2Nat.id in H.
  assert (Hin : In (Pos.to_nat k) (seq 1 (100 * 100))).
  { apply in_seq. lia. }
  apply H in Hin. apply andb_prop in Hin as [H1 H2]. now destruct sign.
Qed.

Lemma digits2_pos_bound (m : positive) : Z.pos m < 2 ^ Z.pos (digits2_pos m).
Proof.
  induction m as [m IH|m IH|]; cbn [digits2_pos];
    rewrite ?Pos2Z.inj_succ, ?Z.pow_succ_r by lia; lia.
Qed.

Lemma valid_mantissa_bound (sg : bool) (m : positive) (e : Z) :
  valid_binary (S754_finite sg m e) = true -> Z.pos m < 2 ^ 53.
Proof.
  unfold SpecFloat.valid_binary, bounded, canonical_mantissa, fexp, SpecFloat.emin.
  intros H. apply andb_prop in H as [H _]. apply Z.eqb_eq in H.
  change IntDef.Z.add with Z.add in *; change IntDef.Z.sub with Z.sub in *;
  change IntDef.Z.max with Z.max in *.
  cbv [prec emax] in H.
  pose proof (digits2_pos_bound m) as Hd.
  assert (Hle : Z.pos (digits2_pos m) <= 53) by lia.
  apply (Z.pow_le_mono_r 2) in Hle; lia.
Qed.

(** Two negative floats in order, and two positive ones. *)
Lemma SFleb_negative (c m : positive) (e0 e : Z) :
  SFleb (S754_finite true c e0) (S754_finite true m e) = true ->
  e < e0 \/ (e = e0 /\ Z.pos m <= Z.pos c).
Proof.
  unfold SFleb, SFcompare.
  change (PosDef.Pos.compare_cont Eq c m) with (Pos.compare c m).
  destruct (Z.compare_spec e0 e) as [He|He|He]; try discriminate.
  - destruct (Pos.compare_spec c m) as [Hm|Hm|Hm]; try discriminate;
      intros _; right; split; lia.
  - intros _. left. lia.
Qed.

Lemma SFleb_positive (c m : positive) (e0 e : Z) :
  SFleb (S754_finite false m e) (S754_finite false c e0) = true ->
  e < e0 \/ (e = e0 /\ Z.pos m <= Z.pos c).
Proof.
  unfold SFleb, SFcompare.
  change (PosDef.Pos.compare_cont Eq m c) with (Pos.compare m c).
  destruct (Z.compare_spec e e0) as [He|He|He]; try discriminate.
  - destruct (Pos.compare_spec m c) as [Hm|Hm|Hm]; try discriminate;
      intros _; right; split; lia.
  - intros _. left. lia.
Qed.

Lemma within_unit_bits (x : float) : within_unit x = true -> unit_bits x.
Proof.
  unfold within_unit, unit_bits. rewrite !leb_spec.
  pose proof (Prim2SF_valid x) as Hv.
  change (Prim2SF (-1)) with (S754_finite true 4503599627370496 (-52)).
  change (Prim2SF 1) with (S754_finite false 4503599627370496 (-52)).
  assert (Hc : Z.pos 4503599627370496 = 2 ^ 52) by reflexivity.
  revert Hc. generalize 4503599627370496%positive. intros c Hc.
  destruct (Prim2SF x) as [sg|sg| |sg m e]; try exact (fun _ => I).
  - destruct sg; discriminate.
  - discriminate.
  - apply valid_mantissa_bound in Hv.
    intros H. apply andb_prop in H as [H1 H2].
    assert (Hb : e < -52 \/ (e = -52 /\ Z.pos m <= Z.pos c)).
    { destruct sg; [apply SFleb_negative in H1|apply SFleb_positive in H2];
        assumption. }
    clear H1 H2. destruct Hb as [He|[-> Hm]].
    + destruct e as [|e|p]; try lia. exists p. split; [reflexivity|].
      assert (Hp : 53 <= Z.pos p) by lia.
      apply (Z.pow_le_mono_r 2) in Hp; lia.
    + exists 52%positive. split; [reflexivity|]. rewrite <- Hc. exact Hm.
Qed.

(** The integer [round] scales a magnitude of at most one to is at most
    [10000]. *)
Lemma scaled_half_even_bound (m p : positive) :
  Z.pos m <= 2 ^ Z.pos p ->
  0 <= Float.scaled_half_even m (Z.neg p) 4 <= 10000.
Proof.
  intros Hm. unfold Float.scaled_half_even.
  change (10 ^ Z.of_nat 4) with 10000.
  set (den := 2 ^ Z.pos p) in *. set (num := Z.pos m * 10000).
  assert (Hden : 0 < den) by (unfold den; apply Z.pow_pos_nonneg; lia).
  pose proof (Z.div_mod num den ltac:(lia)) as Hdm.
  pose proof (Z.mod_pos_bound num den Hden) as Hr.
  set (q := num / den) in *. set (r := num mod den) in *.
  assert (Hnum : num <= 10000 * den) by (unfold num; lia).
  assert (Hq : 0 <= q <= 10000) by (unfold num in *; nia).
  assert (Hq' : q = 10000 -> r = 0) by nia.
  destruct (Z.compare_spec (2 * r) den) as [H|H|H]; try lia.
  destruct (Z.even q); lia.
Qed.

Lemma zero_within_unit (sg : bool) : within_unit (SF2Prim (S754_zero sg)) = true.
Proof. destruct sg; reflexivity. Qed.

Lemma round_within_unit (x : float) :
  unit_bits x -> within_unit (Float.round x 4) = true.
Proof.
  unfold unit_bits, Float.round.
  destruct (Prim2SF x) as [sg|sg| |sg m e] eqn:E; try contradiction.
  - intros _. rewrite <- (SF2Prim_Prim2SF x), E. apply zero_within_unit.
  - intros (p & -> & Hm). pose proof (@scaled_half_even_bound m p Hm) as Hn.
    destruct (Float.scaled_half_even m (Z.neg p) 4) as [|n|n].
    + apply zero_within_unit.
    + apply (@quotient_within_unit sg n). lia.
    + lia.
Qed.

Lemma unit_bits_opp (x : float) : unit_bits x -> unit_bits (- x)%float.
Proof.
  unfold unit_bits. rewrite opp_spec.
  destruct (Prim2SF x); simpl; auto.
Qed.

End Bounds.

(** The signed score of an answer whose score is within [-1, 1], or
    absent, has a magnitude of at most one. *)
Lemma numerical_sentiment_unit (d : SentimentDict) :
  (forall s, score d = Some s -> within_unit s = true) ->
  unit_bits (_get_numerical_sentiment d).
Proof.
  intros Hs. unfold _get_numerical_sentiment.
  assert (Hu : unit_bits match score d with Some s => s | None => 1%float end).
  { destruct (score d) as [s|].
    - apply within_unit_bits. now apply Hs.
    - apply within_unit_bits. reflexivity. }
  destruct (str_eqb _ (py "Positive")).
  - now rewrite mul_one_l.
  - destruct (str_eqb _ (py "Negative")).
    + rewrite mul_minus_one_l. now apply unit_bits_opp.
    + apply within_unit_bits. reflexivity.
Qed.

(** X22. Rounding keeps the sentiment in range: when the sentiment
    pipeline answers with scores within [-1, 1] (a probability is), or
    with no score at all, the sentiment of every record of an analysis is
    a number within [-1, 1], never a NaN or an infinity, whatever the
    label.  Rounding to four decimals and converting back to a float does
    not take a score out of the range. *)
Theorem sentiment_stays_within_unit (env : Collaborators) (text db_file : str) :
  (forall t d ds s,
     sentiment_analyzer env t = Returns (d :: ds) ->
     score d = Some s -> within_unit s = true) ->
  Forall (fun m => within_unit (sentiment m) = true)
    (stocks (value (analyze_text env text db_file))).
Proof.
  intros Hs. apply Forall_forall. intros m Hin.
  apply stocks_from_companies in Hin as (cs & c & _ & _ & Hm).
  apply process_company_some in Hm as (_ & _ & _ & d & ds & Hd & ->).
  apply round_within_unit, numerical_sentiment_unit.
  intros s. exact (Hs _ _ _ s Hd).
Qed.

Lemma sentiment_stays_within_unit_witness :
  Forall (fun m => within_unit (sentiment m) = true)
    (stocks (value (analyze_text
                      (RangeFixtures.bearish [Fixtures.apple; Fixtures.tesla])
                      Fixtures.short_text Fixtures.db))).
Proof.
  apply (sentiment_stays_within_unit
           (RangeFixtures.bearish [Fixtures.apple; Fixtures.tesla])
           Fixtures.short_text Fixtures.db).
  intros t d ds s Hd. injection Hd as <- _. intros Hsc.
  injection Hsc as <-. reflexivity.
Defined.

(** The ends of the range are reached: the largest score below one
    becomes [-1] on a negative label, and a positive answer without a
    score counts as [1]. *)
Example sentiment_reaches_the_ends :
  map sentiment
    (stocks (value (analyze_text
                      (RangeFixtures.bearish [Fixtures.apple])
                      Fixtures.short_text Fixtures.db)))
  = [(-1)%float]
  /\ Float.round (_get_numerical_sentiment RangeFixtures.positive_without_score) 4
     = 1%float.
Proof. vm_compute. split; reflexivity. Qed.
